(** * FinOps portal: billing ingestion, spend analytics and the retry wrapper

    A shallow embedding of

      - [src/app/api/upload/route.ts]  (the CSV upload handler [POST]),
      - [src/app/api/spend/route.ts]   (the analytics handler [GET]),
      - [src/lib/prisma.ts]            ([withRetry] and the connection check),

    together with the properties their specification states.

    Conventions.  A JavaScript string is a [string] (a sequence of bytes, the
    UTF-8 text of the CSV file); a parsed CSV row, an object of type
    [Record<string, string>], is a [gmap string string], so that reading a
    column that the file does not have gives [None], JavaScript's
    [undefined].  Module-level mutable state ([isConnected]) and the
    database are threaded explicitly through a small state monad. *)

From Stdlib Require Import ZArith NArith Ascii String.
From stdpp Require Import gmap strings list sorting.

Local Open Scope string_scope.
Local Open Scope list_scope.
Local Open Scope Z_scope.

(** ** JavaScript primitives used by the handlers *)

Module JS.

(** A value read from a row: a string or [undefined]. *)
Abbreviation value := (option string).

Definition undefined : value := None.

(** [Boolean(v)]: [undefined] and the empty string are falsy. *)
Definition truthy (v : value) : bool :=
  match v with
  | Some s => negb (String.eqb s "")
  | None => false
  end.

(** [a || b]: the left operand when it is truthy, otherwise the right one
    (whatever it is). *)
Definition or (a b : value) : value := if truthy a then a else b.

(** [`${v}`] inside a template literal. *)
Definition template (v : value) : string :=
  match v with
  | Some s => s
  | None => "undefined"
  end.

(** The string behind a value that a guard has shown to be truthy. *)
Definition narrowed (v : value) : string := default "" v.

Fixpoint startsWith (s prefix : string) : bool :=
  match prefix, s with
  | EmptyString, _ => true
  | String p prefix', String c s' => Ascii.eqb c p && startsWith s' prefix'
  | String _ _, EmptyString => false
  end.

(** [s.includes(needle)]. *)
Fixpoint includes (s needle : string) : bool :=
  startsWith s needle ||
  match s with
  | EmptyString => false
  | String _ s' => includes s' needle
  end.

Definition lowerChar (c : ascii) : ascii :=
  let n := N_of_ascii c in
  if ((65 <=? n) && (n <=? 90))%N then ascii_of_N (n + 32) else c.

(** [s.toLowerCase()] on the ASCII letters; the bytes of other characters
    are kept (no character outside ASCII lowers to one of the letters of
    "gcp" or "aws"). *)
Fixpoint toLowerCase (s : string) : string :=
  match s with
  | EmptyString => EmptyString
  | String c s' => String (lowerChar c) (toLowerCase s')
  end.

Definition toUpperChar (c : ascii) : ascii :=
  let n := N_of_ascii c in
  if ((97 <=? n) && (n <=? 122))%N then ascii_of_N (n - 32) else c.

Fixpoint toUpperCase (s : string) : string :=
  match s with
  | EmptyString => EmptyString
  | String c s' => String (toUpperChar c) (toUpperCase s')
  end.

(** *** Numbers *)

(** The result of [parseFloat]: [NaN], an infinity, or the decimal numeral
    that was read, [(-1)^neg * mant * 10^exp].  A numeral beyond the range
    of a double is read as an infinity or as a zero (see [rounded] below);
    inside the range the numeral is kept as it is written: the rounding of
    its digits to the 53 bits of a double is left out, and one number has
    several writings. *)
Inductive number : Type :=
| NaN
| Infinity (neg : bool)
| Dec (neg : bool) (mant : N) (exp : Z).

(** [x >= 0]. *)
Definition nonneg (x : number) : bool :=
  match x with
  | NaN => false
  | Infinity neg => negb neg
  | Dec neg mant _ => negb neg || (mant =? 0)%N
  end.

(** [x < 0]. *)
Definition negative (x : number) : bool :=
  match x with
  | NaN => false
  | Infinity neg => neg
  | Dec neg mant _ => neg && negb (mant =? 0)%N
  end.

(** The white space and the line terminators of one byte: TAB, LF, VT, FF,
    CR and the space. *)
Definition isWhiteSpace (c : ascii) : bool :=
  let n := N_of_ascii c in
  ((9 <=? n) && (n <=? 13) || (n =? 32))%N.

(** Those of two bytes in UTF-8: U+00A0. *)
Definition isWhiteSpace2 (c1 c2 : ascii) : bool :=
  ((N_of_ascii c1 =? 194) && (N_of_ascii c2 =? 160))%N.

(** Those of three bytes: U+1680, U+2000 to U+200A, U+2028, U+2029, U+202F,
    U+205F, U+3000 and U+FEFF. *)
Definition isWhiteSpace3 (c1 c2 c3 : ascii) : bool :=
  let n1 := N_of_ascii c1 in
  let n2 := N_of_ascii c2 in
  let n3 := N_of_ascii c3 in
  ((n1 =? 225) && (n2 =? 154) && (n3 =? 128)
   || (n1 =? 226) && (n2 =? 128)
      && ((128 <=? n3) && (n3 <=? 138) || (n3 =? 168) || (n3 =? 169)
          || (n3 =? 175))
   || (n1 =? 226) && (n2 =? 129) && (n3 =? 159)
   || (n1 =? 227) && (n2 =? 128) && (n3 =? 128)
   || (n1 =? 239) && (n2 =? 187) && (n3 =? 191))%N.

(** Skips the leading white space ([StrWhiteSpaceChar]). *)
Fixpoint trimStart (s : string) : string :=
  match s with
  | String c1 s1 =>
      if isWhiteSpace c1 then trimStart s1
      else
        match s1 with
        | String c2 s2 =>
            if isWhiteSpace2 c1 c2 then trimStart s2
            else
              match s2 with
              | String c3 s3 =>
                  if isWhiteSpace3 c1 c2 c3 then trimStart s3 else s
              | EmptyString => s
              end
        | EmptyString => s
        end
  | EmptyString => s
  end.

Definition digitOf (radix : N) (c : ascii) : option N :=
  let n := N_of_ascii c in
  let d :=
    if ((48 <=? n) && (n <=? 57))%N then Some (n - 48)%N
    else if ((97 <=? n) && (n <=? 122))%N then Some (n - 87)%N
    else if ((65 <=? n) && (n <=? 90))%N then Some (n - 55)%N
    else None in
  match d with
  | Some k => if (k <? radix)%N then Some k else None
  | None => None
  end.

(** Reads the longest run of digits; returns the number read so far, how
    many digits were read, and the rest of the input. *)
Fixpoint readDigits (radix : N) (s : string) (acc : N) (cnt : nat)
  : N * nat * string :=
  match s with
  | String c s' =>
      match digitOf radix c with
      | Some d => readDigits radix s' (acc * radix + d)%N (S cnt)
      | None => (acc, cnt, s)
      end
  | EmptyString => (acc, cnt, s)
  end.

Definition readSign (s : string) : bool * string :=
  match s with
  | String "-" s' => (true, s')
  | String "+" s' => (false, s')
  | _ => (false, s)
  end.

Definition readExponent (s : string) : Z :=
  match s with
  | String c s' =>
      if Ascii.eqb c "e" || Ascii.eqb c "E" then
        let '(neg, s'') := readSign s' in
        let '(e, cnt, _) := readDigits 10 s'' 0%N 0%nat in
        if (cnt =? 0)%nat then 0
        else if neg then - Z.of_N e else Z.of_N e
      else 0
  | EmptyString => 0
  end.

(** The largest double is [2^1024 - 2^971]; a numeral from half a step
    above it on, [2^1024 - 2^970], is read as an infinity. *)
Definition overflows (mant : N) (exp : Z) : bool :=
  let limit := 2 ^ 1024 - 2 ^ 970 in
  if 0 <=? exp then limit <=? Z.of_N mant * 10 ^ exp
  else limit * 10 ^ (- exp) <=? Z.of_N mant.

(** The smallest double above zero is [2^-1074]; a numeral up to half of
    it, [2^-1075], is read as a zero. *)
Definition underflows (mant : N) (exp : Z) : bool :=
  if 0 <=? exp then (mant =? 0)%N
  else Z.of_N mant * 2 ^ 1075 <=? 10 ^ (- exp).

Definition rounded (neg : bool) (mant : N) (exp : Z) : number :=
  if overflows mant exp then Infinity neg
  else if underflows mant exp then Dec neg 0 0
  else Dec neg mant exp.

(** [parseFloat(input)]: leading white space is skipped, then the longest
    prefix that is a decimal literal is read; [NaN] when there is none. *)
Definition parseFloat (input : string) : number :=
  let s := trimStart input in
  let '(neg, s0) := readSign s in
  if startsWith s0 "Infinity" then Infinity neg
  else
    let '(ip, ni, s1) := readDigits 10 s0 0%N 0%nat in
    let '(m, nf, s2) :=
      match s1 with
      | String "." s1' => readDigits 10 s1' ip 0%nat
      | _ => (ip, 0%nat, s1)
      end in
    if (ni + nf =? 0)%nat then NaN
    else rounded neg m (readExponent s2 - Z.of_nat nf).

(** [parseInt(input)] without a radix: white space, a sign, an optional
    [0x] prefix, then the longest run of digits.  [None] is [NaN]. *)
Definition parseInt (input : string) : option Z :=
  let s := trimStart input in
  let '(neg, s0) := readSign s in
  let '(radix, s1) :=
    match s0 with
    | String "0" (String x s') =>
        if Ascii.eqb x "x" || Ascii.eqb x "X" then (16%N, s') else (10%N, s0)
    | _ => (10%N, s0)
    end in
  let '(n, cnt, _) := readDigits radix s1 0%N 0%nat in
  if (cnt =? 0)%nat then None
  else Some (if neg then - Z.of_N n else Z.of_N n).

(** *** Dates *)

(** A [Date] object: its time value in milliseconds since the epoch, or
    [None] for an Invalid Date. *)
Abbreviation date := (option Z).

Definition msPerDay : Z := 86400000.

(** [TimeClip]: time values beyond 8.64e15 ms are invalid. *)
Definition timeClip (t : Z) : date :=
  if Z.abs t <=? 8640000000000000 then Some t else None.

(** Days between the epoch and a civil date. *)
Definition daysFromCivil (y m d : Z) : Z :=
  let y' := if m <=? 2 then y - 1 else y in
  let era := y' / 400 in
  let yoe := y' - era * 400 in
  let doy := (153 * (if m <=? 2 then m + 9 else m - 3) + 2) / 5 + d - 1 in
  let doe := yoe * 365 + yoe / 4 - yoe / 100 + doy in
  era * 146097 + doe - 719468.

Definition daysInMonth (y m : Z) : Z :=
  if m =? 2 then
    if ((y mod 4 =? 0) && negb (y mod 100 =? 0)) || (y mod 400 =? 0)
    then 29 else 28
  else if (m =? 4) || (m =? 6) || (m =? 9) || (m =? 11) then 30 else 31.

Definition fixedDigits (s : string) : option Z :=
  let '(n, cnt, rest) := readDigits 10 s 0%N 0%nat in
  if String.eqb rest "" then Some (Z.of_N n) else None.

(** [new Date(s)] on the date-only ISO form [YYYY-MM-DD] of a day of the
    calendar (midnight UTC).  What [new Date] does on other inputs depends
    on the engine, so the upload handler below takes the date constructor
    as a parameter; this function is the instance used in the worked
    examples, and it is partial: it gives an Invalid Date for every other
    text, also for those in which an engine reads a date (a timestamp with
    a time of day, or a day past the end of its month). *)
Definition isoDate (s : string) : date :=
  if (String.length s =? 10)%nat
     && String.eqb (substring 4 1 s) "-" && String.eqb (substring 7 1 s) "-"
  then
    match fixedDigits (substring 0 4 s), fixedDigits (substring 5 2 s),
          fixedDigits (substring 8 2 s) with
    | Some y, Some m, Some d =>
        if (1 <=? m) && (m <=? 12) && (1 <=? d) && (d <=? daysInMonth y m)
        then timeClip (daysFromCivil y m d * msPerDay)
        else None
    | _, _, _ => None
    end
  else None.

End JS.

(** ** The upload handler: [src/app/api/upload/route.ts] *)

(** A row as [Papa.parse(text, { header: true })] returns it: the cells of
    one line under the names of the header line. *)
Abbreviation Row := (gmap string string).

Inductive Cloud : Type := aws | gcp.

Definition cloudString (c : Cloud) : string :=
  match c with
  | aws => "aws"
  | gcp => "gcp"
  end.

(** One entry of [validRows], the payload of the bulk insert. *)
Record ValidRow : Type := mkValidRow {
  vr_date : JS.date;
  vr_cloud : Cloud;
  vr_account_or_project : string;
  vr_service : string;
  vr_team : string;
  vr_env : string;
  vr_cost_usd : JS.number;
  vr_dedupe_key : string
}.

(** The six raw values read from a row (lines 84-91). *)
Record Normalized : Type := mkNormalized {
  n_date : JS.value;
  n_account_or_project : JS.value;
  n_service : JS.value;
  n_team : JS.value;
  n_env : JS.value;
  n_cost_usd : JS.value
}.

(** [row.a || row.b || row.c]. *)
Definition firstOf (row : Row) (a b c : string) : JS.value :=
  JS.or (JS.or (row !! a) (row !! b)) (row !! c).

Definition normalize (row : Row) : Normalized :=
  {| n_date := firstOf row "date" "usage_start_time" "usage_date";
     n_account_or_project :=
       firstOf row "account_id" "project_id" "billing_account_id";
     n_service := firstOf row "service" "service_description" "sku_description";
     n_team := firstOf row "team" "owner" "department";
     n_env := firstOf row "env" "environment" "stage";
     n_cost_usd := firstOf row "cost_usd" "cost" "cost_amount" |}.

(** The guard of line 94: [!date || !service || !cost_usd]. *)
Definition missingRequired (n : Normalized) : bool :=
  negb (JS.truthy (n_date n)) || negb (JS.truthy (n_service n))
  || negb (JS.truthy (n_cost_usd n)).

(** The template literal of line 98. *)
Definition dedupeKey (cloud : Cloud) (n : Normalized) : string :=
  JS.template (n_date n) +:+ "_" +:+ cloudString cloud +:+ "_" +:+
  JS.template (n_account_or_project n) +:+ "_" +:+
  JS.template (n_service n) +:+ "_" +:+
  JS.template (n_team n) +:+ "_" +:+
  JS.template (n_env n) +:+ "_" +:+
  JS.template (n_cost_usd n).

Definition rowKey (cloud : Cloud) (row : Row) : string :=
  dedupeKey cloud (normalize row).

(** A row passes the validation when the guard does not fire. *)
Definition rowAdmissible (row : Row) : bool :=
  negb (missingRequired (normalize row)).

(** Lines 55-59. *)
Definition detectCloud (name : string) : Cloud :=
  let fileName := JS.toLowerCase name in
  let cloud := aws in
  if JS.includes fileName "gcp" then gcp
  else if JS.includes fileName "aws" then aws
  else cloud.

Section Upload.

(** The [Date] constructor applied to the raw date cell. *)
Variable newDate : string -> JS.date.

(** The object pushed at lines 103-112. *)
Definition buildRow (cloud : Cloud) (n : Normalized) : ValidRow :=
  {| vr_date := newDate (JS.narrowed (n_date n));
     vr_cloud := cloud;
     vr_account_or_project :=
       JS.narrowed (JS.or (n_account_or_project n) (Some "unknown"));
     vr_service := JS.narrowed (n_service n);
     vr_team := JS.narrowed (JS.or (n_team n) (Some "unassigned"));
     vr_env := JS.narrowed (JS.or (n_env n) (Some "prod"));
     vr_cost_usd := JS.parseFloat (JS.narrowed (n_cost_usd n));
     vr_dedupe_key := dedupeKey cloud n |}.

(** The loop of lines 82-113, on the two variables it updates: the set
    [seen] and the array [validRows]. *)
Fixpoint collectFrom (cloud : Cloud) (rows : list Row)
    (seen : gset string) (validRows : list ValidRow)
  : gset string * list ValidRow :=
  match rows with
  | [] => (seen, validRows)
  | row :: rest =>
      let n := normalize row in
      if missingRequired n then collectFrom cloud rest seen validRows
      else
        let key := dedupeKey cloud n in
        if decide (key ∈ seen) then collectFrom cloud rest seen validRows
        else collectFrom cloud rest ({[key]} ∪ seen)
                         (validRows ++ [buildRow cloud n])
  end.

Definition collect (cloud : Cloud) (rows : list Row) : list ValidRow :=
  snd (collectFrom cloud rows ∅ []).

End Upload.

(** ** The retry wrapper: [src/lib/prisma.ts] *)

(** What a [catch] clause receives. *)
Inductive Thrown : Type :=
| ErrorObject (name message : string)   (* an instance of [Error] *)
| Primitive (text : string)             (* any other value, by its [String()] *)
| Undefined.

(** A call either returns or throws. *)
Inductive Outcome (A : Type) : Type :=
| Returned (a : A)
| Threw (e : Thrown).
Arguments Returned {A} a.
Arguments Threw {A} e.

(** [error instanceof Error ? error.message : String(error)]. *)
Definition errorMessage (e : Thrown) : string :=
  match e with
  | ErrorObject _ message => message
  | Primitive text => text
  | Undefined => "undefined"
  end.

(** [String(error)]; for an [Error] this is [Error.prototype.toString]. *)
Definition errorString (e : Thrown) : string :=
  match e with
  | ErrorObject name message =>
      if String.eqb name "" then message
      else if String.eqb message "" then name
      else name +:+ ": " +:+ message
  | Primitive text => text
  | Undefined => "undefined"
  end.

(** Lines 135-142. *)
Definition isConnectionError (e : Thrown) : bool :=
  let errorMessage := errorMessage e in
  let errorString := errorString e in
  JS.includes errorMessage "connection" ||
  JS.includes errorMessage "ECONNREFUSED" ||
  JS.includes errorMessage "10054" ||
  JS.includes errorMessage "forcibly closed" ||
  JS.includes errorMessage "Closed" ||
  JS.includes errorString "P1001" ||
  JS.includes errorString "P1017".

(** What the wrapper does that can be seen from outside. *)
Inductive Event : Type :=
| QueryRaw                                   (* [prisma.$queryRaw`SELECT 1`] *)
| Operation (threw : option Thrown)          (* [operation()] and how it ended *)
| Disconnect                                 (* [prisma.$disconnect()] *)
| SetTimeout (delay : Z)                        (* [setTimeout(resolve, delay)] *)
| Connect                                    (* [prisma.$connect()] *)
| WarnCheckFailed
| WarnRetrying (attempt maxRetries : nat) (delay : Z)
| WarnReconnectFailed.

Section Retry.

(** The database server and whatever else the client talks to. *)
Context {W : Type}.

(** The module-level variable [isConnected] next to the outside world. *)
Record State : Type := mkState {
  isConnected : bool;
  world : W
}.

(** A computation reads and updates the state and emits events. *)
Definition M (A : Type) : Type := State -> A * State * list Event.

Definition ret {A : Type} (a : A) : M A := fun st => (a, st, []).

Definition bind {A B : Type} (m : M A) (k : A -> M B) : M B :=
  fun st =>
    let '(a, st1, evs1) := m st in
    let '(b, st2, evs2) := k a st1 in
    (b, st2, evs1 ++ evs2).

Definition emit (ev : Event) : M unit := fun st => (tt, st, [ev]).

Definition setConnected (b : bool) : M unit :=
  fun st => (tt, mkState b (world st), []).

Definition getConnected : M bool := fun st => (isConnected st, st, []).

(** A call to the client: it acts on the world and returns or throws. *)
Definition call {A : Type} (f : W -> Outcome A * W) (ev : Outcome A -> Event)
  : M (Outcome A) :=
  fun st =>
    let '(r, w) := f (world st) in
    (r, mkState (isConnected st) w, [ev r]).

Definition thrownOf {A : Type} (r : Outcome A) : option Thrown :=
  match r with
  | Returned _ => None
  | Threw e => Some e
  end.

Variable queryRaw : W -> Outcome unit * W.
Variable disconnect : W -> Outcome unit * W.
Variable connect : W -> Outcome unit * W.

(** Lines 60-84, one caller at a time (the cached promise only matters to
    callers that overlap). *)
Definition checkConnection : M bool :=
  bind (call queryRaw (fun _ => QueryRaw)) (fun r =>
  match r with
  | Returned _ => bind (setConnected true) (fun _ => ret true)
  | Threw _ =>
      bind (setConnected false) (fun _ =>
      bind (emit WarnCheckFailed) (fun _ => ret false))
  end).

(** Lines 92-96. *)
Definition ensureConnection : M unit :=
  bind getConnected (fun connected =>
  if negb connected then bind checkConnection (fun _ => ret tt)
  else ret tt).

(** Lines 158-165: the inner [try] and its [catch]. *)
Definition reconnect (delay : Z) : M unit :=
  bind (call disconnect (fun _ => Disconnect)) (fun r1 =>
  match r1 with
  | Threw _ => emit WarnReconnectFailed
  | Returned _ =>
      bind (emit (SetTimeout delay)) (fun _ =>
      bind (call connect (fun _ => Connect)) (fun r2 =>
      match r2 with
      | Threw _ => emit WarnReconnectFailed
      | Returned _ => setConnected true
      end))
  end).

Context {T : Type}.
Variable operation : W -> Outcome T * W.

(** The [for] loop of lines 120-175.  [left] counts the iterations that
    remain: the loop runs while [attempt <= maxRetries]. *)
Fixpoint attempts (maxRetries : nat) (initialDelay : Z)
    (left attempt : nat) (lastError : Thrown) : M (Outcome T) :=
  match left with
  | O => ret (Threw lastError)
  | S left' =>
      bind ensureConnection (fun _ =>
      bind (call operation (fun r => Operation (thrownOf r))) (fun r =>
      match r with
      | Returned v => ret (Returned v)
      | Threw error =>
          if isConnectionError error then
            bind (setConnected false) (fun _ =>
            if (attempt <? maxRetries)%nat then
              let delay := initialDelay * 2 ^ (Z.of_nat attempt - 1) in
              bind (emit (WarnRetrying attempt maxRetries delay)) (fun _ =>
              bind (reconnect delay) (fun _ =>
              attempts maxRetries initialDelay left' (S attempt) error))
            else ret (Threw error))
          else ret (Threw error)
      end))
  end.

(** Lines 112-179. *)
Definition withRetry (maxRetries : nat) (initialDelay : Z) : M (Outcome T) :=
  attempts maxRetries initialDelay maxRetries 1 Undefined.

End Retry.

Arguments State W : clear implicits.
Arguments M W A : clear implicits.

(** The defaults of the signature: [maxRetries = 3], [initialDelay = 500]. *)
Definition defaultMaxRetries : nat := 3.
Definition defaultInitialDelay : Z := 500.

(** Projections of a run. *)
Definition resultOf {W A : Type} (run : A * State W * list Event) : A :=
  fst (fst run).
Definition stateOf {W A : Type} (run : A * State W * list Event) : State W :=
  snd (fst run).
Definition eventsOf {W A : Type} (run : A * State W * list Event) : list Event :=
  snd run.

(** How often the operation was called, which delays were announced, and
    which were waited for. *)
Fixpoint operationCalls (evs : list Event) : nat :=
  match evs with
  | [] => O
  | Operation _ :: evs' => S (operationCalls evs')
  | _ :: evs' => operationCalls evs'
  end.

Fixpoint announcedDelays (evs : list Event) : list Z :=
  match evs with
  | [] => []
  | WarnRetrying _ _ delay :: evs' => delay :: announcedDelays evs'
  | _ :: evs' => announcedDelays evs'
  end.

Fixpoint waitedDelays (evs : list Event) : list Z :=
  match evs with
  | [] => []
  | SetTimeout delay :: evs' => delay :: waitedDelays evs'
  | _ :: evs' => waitedDelays evs'
  end.

(** How the calls of the operation ended, in order. *)
Fixpoint operationOutcomes (evs : list Event) : list (option Thrown) :=
  match evs with
  | [] => []
  | Operation threw :: evs' => threw :: operationOutcomes evs'
  | _ :: evs' => operationOutcomes evs'
  end.

(** The delays of a run that makes [k] retries: base, 2*base, 4*base, ... *)
Definition backoff (initialDelay : Z) (k : nat) : list Z :=
  map (fun i => initialDelay * 2 ^ Z.of_nat i) (seq 0 k).

(** ** The persistence layer *)

(** A line of the table [SpendRecord] of the migration (the generated [id]
    and [createdAt] columns, which no handler reads, are left out).  The
    columns [team] and [env] are nullable; [dedupe_key] carries the unique
    index [SpendRecord_dedupe_key_key]. *)
Record SpendRecord : Type := mkSpendRecord {
  sr_date : JS.date;
  sr_cloud : string;
  sr_account_or_project : string;
  sr_service : string;
  sr_team : option string;
  sr_env : option string;
  sr_cost_usd : JS.number;
  sr_dedupe_key : string
}.

(** The database: the table, and the payloads the bulk insert was called
    with, oldest first (what the mock of the test suite records). *)
Record Db : Type := mkDb {
  records : list SpendRecord;
  received : list (list ValidRow)
}.

(** The line that a payload entry becomes.  The cost is the number that
    was handed over; the six decimals to which the column rounds it are
    not modelled. *)
Definition toRecord (v : ValidRow) : SpendRecord :=
  {| sr_date := vr_date v;
     sr_cloud := cloudString (vr_cloud v);
     sr_account_or_project := vr_account_or_project v;
     sr_service := vr_service v;
     sr_team := Some (vr_team v);
     sr_env := Some (vr_env v);
     sr_cost_usd := vr_cost_usd v;
     sr_dedupe_key := vr_dedupe_key v |}.

Definition keyTaken (key : string) (table : list SpendRecord) : bool :=
  existsb (fun r => String.eqb (sr_dedupe_key r) key) table.

(** [INSERT ... ON CONFLICT DO NOTHING]: a line whose key is in the table
    (or earlier in the same statement) is passed over; the others are
    appended and counted. *)
Fixpoint insertSkipping (data : list ValidRow) (table : list SpendRecord)
    (count : Z) : list SpendRecord * Z :=
  match data with
  | [] => (table, count)
  | v :: rest =>
      if keyTaken (vr_dedupe_key v) table then insertSkipping rest table count
      else insertSkipping rest (table ++ [toRecord v]) (count + 1)
  end.

Definition uniqueViolation : Thrown :=
  ErrorObject "PrismaClientKnownRequestError"
    "Unique constraint failed on the fields: (`dedupe_key`)".

(** The column [cost_usd] is [DECIMAL(18,6)]: it takes a finite number
    that, rounded to six decimals, has at most twelve digits before the
    point.  The number handed over is the double next to the numeral that
    [parseFloat] read.  The doubles under [10^12] are [2^-13] apart and
    each of them fits; a numeral is rounded to one of them, and not to
    [10^12], when it is less than [10^12 - 2^-14]. *)
Definition fitsDecimal (x : JS.number) : bool :=
  match x with
  | JS.Dec _ mant exp =>
      if 0 <=? exp then
        2 ^ 14 * (Z.of_N mant * 10 ^ exp) <? 2 ^ 14 * 10 ^ 12 - 1
      else
        2 ^ 14 * Z.of_N mant <? (2 ^ 14 * 10 ^ 12 - 1) * 10 ^ (- exp)
  | JS.NaN | JS.Infinity _ => false
  end.

(** What the client and the database take for the columns [date]
    ([TIMESTAMP(3) NOT NULL]) and [cost_usd] ([DECIMAL(18,6) NOT NULL]): a
    [Date] that is not an Invalid Date, and a number that is neither [NaN]
    nor infinite and fits the column. *)
Definition storableValues (date : JS.date) (cost : JS.number) : bool :=
  match date with
  | Some _ => fitsDecimal cost
  | None => false
  end.

Definition storable (v : ValidRow) : bool :=
  storableValues (vr_date v) (vr_cost_usd v).

(** What the bulk insert throws when a line of the payload is not
    storable.  The text stands for the client's message, of which the
    wrapper only asks whether it names a connection failure; it is taken
    not to. *)
Definition refusedPayload : Thrown :=
  ErrorObject "PrismaClientValidationError"
    "Invalid value provided for an argument of createMany()".

(** [prisma.spendRecord.createMany({ data, skipDuplicates })] on a database
    that is reachable.  A payload with a line that is not storable is
    refused as a whole and nothing is written.  Without [skipDuplicates] a
    conflict aborts the whole statement. *)
Definition createMany (data : list ValidRow) (skipDuplicates : bool) (db : Db)
  : Outcome Z * Db :=
  if forallb storable data then
    let '(table, count) := insertSkipping data (records db) 0 in
    if skipDuplicates || (count =? Z.of_nat (length data)) then
      (Returned count, mkDb table (received db ++ [data]))
    else
      (Threw uniqueViolation, mkDb (records db) (received db ++ [data]))
  else
    (Threw refusedPayload, mkDb (records db) (received db ++ [data])).

(** The other calls of the client succeed on a reachable database. *)
Definition reachable (db : Db) : Outcome unit * Db := (Returned tt, db).

(** ** The upload handler, continued *)

(** A JSON response and its status. *)
Record Response (B : Type) : Type := mkResponse {
  status : Z;
  body : B
}.
Arguments mkResponse {B} status body.
Arguments status {B} r.
Arguments body {B} r.

Inductive UploadBody : Type :=
| UploadError (error : string)
| UploadSummary (message : string) (inserted skipped : Z).

(** The uploaded file: its name and the rows that
    [Papa.parse(await file.text(), { header: true })] finds in its text. *)
Record File : Type := mkFile {
  file_name : string;
  file_rows : list Row
}.

Definition emptyCsv : Response UploadBody :=
  mkResponse 400 (UploadError "Empty CSV file").

Definition noValidRows : Response UploadBody :=
  mkResponse 400 (UploadError "No valid rows found after parsing").

Definition uploadFailed : Response UploadBody :=
  mkResponse 500 (UploadError "Upload failed").

Definition uploaded (cloud : Cloud) (inserted skipped : Z) : Response UploadBody :=
  mkResponse 200
    (UploadSummary
       ("Uploaded successfully (" +:+ JS.toUpperCase (cloudString cloud)
        +:+ " detected)")
       inserted skipped).

Section UploadHandler.

Context {W : Type}.
Variable newDate : string -> JS.date.
Variable queryRaw : W -> Outcome unit * W.
Variable disconnect : W -> Outcome unit * W.
Variable connect : W -> Outcome unit * W.
Variable createMany : list ValidRow -> bool -> W -> Outcome Z * W.

(** Lines 29-143.  [authError] is what [requireRoles] answered. *)
Definition POST (authError : option (Response UploadBody)) (file : option File)
  : M W (Response UploadBody) :=
  match authError with
  | Some denied => ret denied
  | None =>
      match file with
      | None => ret (mkResponse 400 (UploadError "No file uploaded"))
      | Some file =>
          let rows := file_rows file in
          if (length rows =? 0)%nat then ret emptyCsv
          else
            let cloud := detectCloud (file_name file) in
            let validRows := collect newDate cloud rows in
            if (length validRows =? 0)%nat then ret noValidRows
            else
              bind (withRetry queryRaw disconnect connect
                      (createMany validRows true)
                      defaultMaxRetries defaultInitialDelay) (fun result =>
              match result with
              | Returned count =>
                  ret (uploaded cloud count (Z.of_nat (length rows) - count))
              | Threw _ => ret uploadFailed
              end)
      end
  end.

End UploadHandler.

(** The handler in front of a reachable database. *)
Definition upload (newDate : string -> JS.date) (file : File)
  : M Db (Response UploadBody) :=
  POST newDate reachable reachable reachable createMany None (Some file).

(** ** The analytics handler: [src/app/api/spend/route.ts] *)

(** The query parameters: [searchParams.get] gives a string or [null]. *)
Record SpendQuery : Type := mkSpendQuery {
  q_range : option string;
  q_cloud : option string;
  q_team : option string;
  q_env : option string
}.

(** [searchParams.get(name) || undefined]. *)
Definition optionalFilter (v : option string) : option string :=
  JS.or v JS.undefined.

(** Line 38: [parseInt(searchParams.get("range") || "30")]. *)
Definition rangeOf (q : SpendQuery) : option Z :=
  JS.parseInt (JS.narrowed (JS.or (q_range q) (Some "30"))).

(** Lines 44-46: [startDate.setDate(endDate.getDate() - range)] moves the
    date back by [range] days of the local calendar (a zone with a fixed
    offset is assumed); a range that is [NaN] gives an Invalid Date. *)
Definition startDateOf (now : Z) (range : option Z) : JS.date :=
  match range with
  | Some days => JS.timeClip (now - days * JS.msPerDay)
  | None => None
  end.

(** A [where] clause. *)
Record Where : Type := mkWhere {
  date_gte : Z;
  date_lte : Z;
  where_cloud : option string;
  where_team : option string;
  where_env : option string
}.

Definition optionMatches (wanted : option string) (actual : option string) : bool :=
  match wanted with
  | None => true
  | Some w =>
      match actual with
      | Some a => String.eqb a w
      | None => false
      end
  end.

Definition inWindow (startDate endDate : Z) (r : SpendRecord) : bool :=
  match sr_date r with
  | Some t => (startDate <=? t) && (t <=? endDate)
  | None => false
  end.

Definition satisfies (w : Where) (r : SpendRecord) : bool :=
  inWindow (date_gte w) (date_lte w) r
  && optionMatches (where_cloud w) (Some (sr_cloud r))
  && optionMatches (where_team w) (sr_team r)
  && optionMatches (where_env w) (sr_env r).

(** [distinct]: one line for each value, the first one met. *)
Fixpoint distinct {A : Type} `{EqDecision A} (l : list A) : list A :=
  match l with
  | [] => []
  | x :: l' => x :: filter (fun y => y ≠ x) (distinct l')
  end.

(** [findMany({ where, select: { column: true }, distinct: [column] })]. *)
Definition findManyDistinct (w : Where) (column : SpendRecord -> option string)
    (table : list SpendRecord) : list (option string) :=
  distinct (map column (filter (fun r => satisfies w r = true) table)).

(** The order of [Array.prototype.sort] without a comparator, on strings:
    the order of the UTF-16 code units, which on the UTF-8 bytes of
    well-formed text is the order of the bytes (characters outside the
    basic plane apart, which UTF-16 sorts before U+E000). *)
Definition stringLe (a b : string) : Prop := String.leb a b = true.

#[global] Instance stringLe_dec : RelDecision stringLe.
Proof. intros a b. unfold stringLe. apply _. Defined.

(** [values.filter(Boolean).sort()]. *)
Definition presentSorted (values : list (option string)) : list string :=
  merge_sort stringLe
    (omap (fun v => if JS.truthy v then v else None) values).

Inductive GroupField : Type := ByDate | ByService.
Inductive GroupOrder : Type := DateAsc | SumCostDesc.

Record GroupByArgs : Type := mkGroupByArgs {
  group_by : GroupField;
  group_where : Where;
  group_orderBy : GroupOrder;
  group_take : option nat
}.

Inductive SpendBody (Group : Type) : Type :=
| SpendError (error : string)
| SpendData (daily topServices : list Group)
            (availableTeams availableEnvs : list string).
Arguments SpendError {Group} error.
Arguments SpendData {Group} daily topServices availableTeams availableEnvs.

Section SpendHandler.

(** [prisma.spendRecord.groupBy] with [_sum: { cost_usd: true }] and the
    lines it returns. *)
Context {Group : Type}.
Variable groupBy : GroupByArgs -> list SpendRecord -> list Group.

Definition spendFailed : Response (SpendBody Group) :=
  mkResponse 500 (SpendError "Failed to load dashboard data").

(** Lines 30-119, in front of a reachable database holding [table], at the
    instant [now].  A date that is invalid is refused by the client, and
    the refusal ends in the [catch] clause. *)
Definition GET (authError : option (Response (SpendBody Group)))
    (q : SpendQuery) (now : Z) (table : list SpendRecord)
  : Response (SpendBody Group) :=
  match authError with
  | Some denied => denied
  | None =>
      let range := rangeOf q in
      let cloud := optionalFilter (q_cloud q) in
      let team := optionalFilter (q_team q) in
      let env := optionalFilter (q_env q) in
      let endDate := now in
      match startDateOf now range with
      | None => spendFailed
      | Some startDate =>
          let where_ := mkWhere startDate endDate cloud team env in
          let daily :=
            groupBy (mkGroupByArgs ByDate where_ DateAsc None) table in
          let topServices :=
            groupBy (mkGroupByArgs ByService where_ SumCostDesc (Some 5%nat))
                    table in
          let teams :=
            findManyDistinct (mkWhere startDate endDate None None None)
                             sr_team table in
          let envs :=
            findManyDistinct (mkWhere startDate endDate None None None)
                             sr_env table in
          mkResponse 200
            (SpendData daily topServices
                       (presentSorted teams) (presentSorted envs))
      end
  end.

End SpendHandler.

(** ** Worked data *)

Definition ec2Row : Row :=
  {[ "date" := "2024-01-01"; "service" := "EC2"; "cost_usd" := "100.50" ]}.

Definition s3Row : Row :=
  {[ "date" := "2024-01-01"; "service" := "S3"; "cost_usd" := "50.25" ]}.

(** The line [,InvalidService,] of the test suite. *)
Definition invalidRow : Row :=
  {[ "date" := ""; "service" := "InvalidService"; "cost_usd" := "" ]}.

Definition refundRow : Row :=
  {[ "date" := "2024-01-03"; "service" := "EC2"; "cost_usd" := "-5" ]}.




Definition testFile : File := mkFile "test.csv" [ec2Row; s3Row].

(** A process that has just started, in front of an empty table. *)
Definition freshState : State Db := mkState false (mkDb [] []).

(** A table with lines inside and outside a window of seven days that
    ends on 2024-01-08, and without team or environment. *)
Definition sampleTable : list SpendRecord :=
  [ mkSpendRecord (JS.isoDate "2024-01-05") "aws" "unknown" "EC2"
      (Some "web") (Some "prod") (JS.Dec false 10050 (-2)) "k1";
    mkSpendRecord (JS.isoDate "2024-01-06") "gcp" "p-1" "BigQuery"
      (Some "data") (Some "prod") (JS.Dec false 7 0) "k2";
    mkSpendRecord (JS.isoDate "2024-01-06") "aws" "unknown" "S3"
      None (Some "") (JS.Dec false 5025 (-2)) "k3";
    mkSpendRecord (JS.isoDate "2023-11-30") "aws" "unknown" "EC2"
      (Some "archive") (Some "staging") (JS.Dec false 1 0) "k4" ].

Definition sampleNow : Z := 1704672000000.

Definition noGroups (args : GroupByArgs) (table : list SpendRecord) : list unit :=
  [].

(** A server that refuses every connection, and one whose table rejects
    the statement. *)
Definition refusing (w : unit) : Outcome Z * unit :=
  (Threw (ErrorObject "Error" "connect ECONNREFUSED 127.0.0.1:5432"), w).

Definition rejecting (w : unit) : Outcome Z * unit :=
  (Threw uniqueViolation, w).

Definition answering (w : unit) : Outcome unit * unit := (Returned tt, w).

(** A client whose [$disconnect] rejects. *)
Definition stuck (w : unit) : Outcome unit * unit :=
  (Threw (ErrorObject "Error" "Engine is not yet connected."), w).

(** ** Vocabulary of the statements *)

(** [s] contains [t] somewhere. *)
Definition contains (s t : string) : Prop :=
  exists before after, s = before +:+ t +:+ after.

(** The columns from which the three mandatory fields are read. *)
Definition requiredColumns : list string :=
  [ "date"; "usage_start_time"; "usage_date";
    "service"; "service_description"; "sku_description";
    "cost_usd"; "cost"; "cost_amount" ].

(** A row of an AWS-style export: date, service and cost under the headers
    [usage_start_time], [service_description] and [cost]. *)
Definition awsStyle (d s c : string) (others : Row) : Row :=
  <["usage_start_time" := d]> (<["service_description" := s]>
    (<["cost" := c]> others)).

(** The same values under the GCP-style headers [usage_date],
    [sku_description] and [cost_amount]. *)
Definition gcpStyle (d s c : string) (others : Row) : Row :=
  <["usage_date" := d]> (<["sku_description" := s]>
    (<["cost_amount" := c]> others)).

(** The three optional fields and the columns each is read from. *)
Inductive OptionalField : Type := AccountOrProject | Team | Env.

Definition optionalColumns (f : OptionalField) : list string :=
  match f with
  | AccountOrProject => [ "account_id"; "project_id"; "billing_account_id" ]
  | Team => [ "team"; "owner"; "department" ]
  | Env => [ "env"; "environment"; "stage" ]
  end.

Definition optionalValue (f : OptionalField) (n : Normalized) : JS.value :=
  match f with
  | AccountOrProject => n_account_or_project n
  | Team => n_team n
  | Env => n_env n
  end.


(** ** More worked data *)

(** A call of the client that succeeds and leaves the world as it is. *)
Definition steady {W : Type} (w : W) : Outcome unit * W := (Returned tt, w).

(** An operation in front of a server that fails the first [failures]
    calls with the error [e] and answers [v] from then on; the world is the
    number of calls made so far. *)
Definition flaky {T : Type} (failures : nat) (e : Thrown) (v : T) (calls : nat)
  : Outcome T * nat :=
  if (calls <? failures)%nat then (Threw e, S calls) else (Returned v, S calls).

(** ** Sessions and roles: [src/lib/auth.ts] and [src/lib/api-auth.ts] *)

(** The enum [Role] of the schema. *)
Inductive Role : Type := ADMIN | ANALYST | VIEWER.

#[global] Instance Role_eq_dec : EqDecision Role.
Proof. solve_decision. Defined.

(** The interface [SessionUser]. *)
Record SessionUser : Type := mkSessionUser {
  su_id : string;
  su_email : string;
  su_role : Role;
  su_name : option string
}.

(** A line of the table [User] (without [createdAt]). *)
Record User : Type := mkUser {
  user_id : string;
  user_email : string;
  user_name : option string;
  user_role : Role;
  user_password : string
}.

(** The fields that [getSession] selects and that [login] returns. *)
Definition toSession (u : User) : SessionUser :=
  {| su_id := user_id u;
     su_email := user_email u;
     su_role := user_role u;
     su_name := user_name u |}.

(** The body [{ error: "..." }]. *)
Inductive ErrorBody : Type := ErrorMessage (error : string).

(** What [requireAuth] and [requireRoles] return. *)
Record AuthResult : Type := mkAuthResult {
  auth_error : option (Response ErrorBody);
  auth_session : option SessionUser
}.

Definition unauthorized : Response ErrorBody :=
  mkResponse 401 (ErrorMessage "Unauthorized").

Definition forbidden : Response ErrorBody :=
  mkResponse 403 (ErrorMessage "Forbidden: Insufficient permissions").

(** [requireRole(allowedRoles)(user)], lines 101-106 of [auth.ts]. *)
Definition requireRole (allowedRoles : list Role) (user : option SessionUser)
  : bool :=
  match user with
  | None => false
  | Some u => bool_decide (su_role u ∈ allowedRoles)
  end.

Section Auth.

Context {W : Type}.
Variables queryRaw disconnect connect : W -> Outcome unit * W.

(** [prisma.user.findUnique({ where: { id }, select })] and
    [prisma.user.findUnique({ where: { email } })]. *)
Variable findUserById : string -> W -> Outcome (option SessionUser) * W.
Variable findUserByEmail : string -> W -> Outcome (option User) * W.

(** [bcrypt.compare(password, hash)]. *)
Variable compare : string -> string -> bool.

(** Lines 66-86 of [auth.ts]; [cookie] is
    [cookieStore.get("session")?.value]. *)
Definition getSession (cookie : JS.value) : M W (option SessionUser) :=
  let sessionId := cookie in
  if negb (JS.truthy sessionId) then ret None
  else
    bind (withRetry queryRaw disconnect connect
            (findUserById (JS.narrowed sessionId))
            defaultMaxRetries defaultInitialDelay) (fun r =>
    match r with
    | Returned user => ret user
    | Threw _ => ret None
    end).

(** Lines 23-32 of [api-auth.ts]. *)
Definition requireAuth (cookie : JS.value) : M W AuthResult :=
  bind (getSession cookie) (fun session =>
  match session with
  | None => ret (mkAuthResult (Some unauthorized) None)
  | Some s => ret (mkAuthResult None (Some s))
  end).

(** Lines 47-64 of [api-auth.ts]. *)
Definition requireRoles (allowedRoles : list Role) (cookie : JS.value)
  : M W AuthResult :=
  bind (requireAuth cookie) (fun r =>
  match auth_error r with
  | Some error => ret (mkAuthResult (Some error) None)
  | None =>
      let hasRole := requireRole allowedRoles (auth_session r) in
      if negb hasRole then ret (mkAuthResult (Some forbidden) None)
      else ret (mkAuthResult None (auth_session r))
  end).

(** Lines 39-56 of [auth.ts]: the lookup is not inside a [try], so what it
    throws is thrown on. *)
Definition login (email password : string) : M W (Outcome (option SessionUser)) :=
  bind (withRetry queryRaw disconnect connect (findUserByEmail email)
          defaultMaxRetries defaultInitialDelay) (fun r =>
  match r with
  | Threw e => ret (Threw e)
  | Returned None => ret (Returned None)
  | Returned (Some user) =>
      let valid := compare password (user_password user) in
      if negb valid then ret (Returned None)
      else ret (Returned (Some (toSession user)))
  end).

End Auth.

(** ** The login route: [POST /api/auth/login] *)

Inductive LoginBody : Type :=
| LoginError (error : string)
| LoginUser (email : string) (role : Role) (name : option string).

Section LoginRoute.

Context {W : Type}.
Variables queryRaw disconnect connect : W -> Outcome unit * W.
Variable findUserByEmail : string -> W -> Outcome (option User) * W.
Variable compare : string -> string -> bool.

(** The handler, for a body whose [email] and [password], when present,
    are strings.  Next to the response it returns the value that
    [cookieStore.set("session", ...)] gives the session cookie, if any. *)
Definition loginRoute (email password : JS.value)
  : M W (Response LoginBody * option string) :=
  if negb (JS.truthy email) || negb (JS.truthy password) then
    ret (mkResponse 400 (LoginError "Email and password required"), None)
  else
    bind (login queryRaw disconnect connect findUserByEmail compare
            (JS.narrowed email) (JS.narrowed password)) (fun r =>
    match r with
    | Threw _ => ret (mkResponse 500 (LoginError "Login failed"), None)
    | Returned None =>
        ret (mkResponse 401 (LoginError "Invalid credentials"), None)
    | Returned (Some user) =>
        ret (mkResponse 200
               (LoginUser (su_email user) (su_role user) (su_name user)),
             Some (su_id user))
    end).

End LoginRoute.

(** ** The routes behind their guards *)

(** [return authError]: the same JSON under the type of each handler. *)
Definition asUploadError (r : Response ErrorBody) : Response UploadBody :=
  mkResponse (status r) (match body r with ErrorMessage m => UploadError m end).

Definition asSpendError {Group : Type} (r : Response ErrorBody)
  : Response (SpendBody Group) :=
  mkResponse (status r) (match body r with ErrorMessage m => SpendError m end).

(** The portal's database: the users and the spend table. *)
Record Portal : Type := mkPortal {
  users : list User;
  spend : Db
}.

(** [findUnique]: the line with the id (the primary key), if there is
    one. *)
Definition userById (id : string) (table : list User) : option User :=
  find (fun u => bool_decide (user_id u = id)) table.

(** [findUnique] by [email], which carries a unique index. *)
Definition userByEmail (email : string) (table : list User) : option User :=
  find (fun u => bool_decide (user_email u = email)) table.

Definition findSessionUser (id : string) (p : Portal)
  : Outcome (option SessionUser) * Portal :=
  (Returned (toSession <$> userById id (users p)), p).

Definition findUser (email : string) (p : Portal)
  : Outcome (option User) * Portal :=
  (Returned (userByEmail email (users p)), p).

Definition createManySpend (data : list ValidRow) (skipDuplicates : bool)
    (p : Portal) : Outcome Z * Portal :=
  let '(r, db) := createMany data skipDuplicates (spend p) in
  (r, mkPortal (users p) db).

(** Whose session a cookie is. *)
Definition sessionOf (cookie : JS.value) (p : Portal) : option User :=
  if JS.truthy cookie then userById (JS.narrowed cookie) (users p) else None.

(** [POST /api/upload] as a whole: lines 29-143, with the guard of lines
    31-32, in front of a reachable database. *)
Definition uploadRoute (newDate : string -> JS.date) (cookie : JS.value)
    (file : option File) : M Portal (Response UploadBody) :=
  bind (requireRoles steady steady steady findSessionUser [ADMIN; ANALYST] cookie)
    (fun guard =>
  POST newDate steady steady steady createManySpend
       (asUploadError <$> auth_error guard) file).

(** [GET /api/spend] as a whole, at the instant [now]. *)
Definition spendRoute {Group : Type}
    (groupBy : GroupByArgs -> list SpendRecord -> list Group)
    (cookie : JS.value) (q : SpendQuery) (now : Z)
  : M Portal (Response (SpendBody Group)) :=
  bind (requireAuth steady steady steady findSessionUser cookie) (fun guard =>
  fun st =>
    (GET groupBy (asSpendError <$> auth_error guard) q now
         (records (spend (world st))), st, [])).

(** [POST /api/auth/login] in front of the same database. *)
Definition loginPortal (compare : string -> string -> bool)
    (email password : JS.value) : M Portal (Response LoginBody * option string) :=
  loginRoute steady steady steady findUser compare email password.

(** Three users, as the seed script creates them (the hash stands for
    itself), and a portal with an empty spend table. *)
Definition seedUsers : list User :=
  [ mkUser "u-admin" "admin@kco.dev" (Some "Admin") ADMIN "hash:Passw0rd!";
    mkUser "u-analyst" "analyst@kco.dev" (Some "Analyst") ANALYST "hash:Passw0rd!";
    mkUser "u-viewer" "viewer@kco.dev" (Some "Viewer") VIEWER "hash:Passw0rd!" ].

Definition seedPortal : State Portal :=
  mkState false (mkPortal seedUsers (mkDb [] [])).

(** A stand-in for [bcrypt.compare] on the hashes of [seedUsers]. *)
Definition compareSeed (password hash : string) : bool :=
  String.eqb hash ("hash:" +:+ password).

(** ** The savings list: [GET /api/savings] *)

(** The enum [SavingStatus] of the schema. *)
Inductive SavingStatus : Type := PROPOSED | APPROVED | REALIZED.

#[global] Instance SavingStatus_eq_dec : EqDecision SavingStatus.
Proof. solve_decision. Defined.

Definition statusName (s : SavingStatus) : string :=
  match s with
  | PROPOSED => "PROPOSED"
  | APPROVED => "APPROVED"
  | REALIZED => "REALIZED"
  end.

(** [Object.values(SavingStatus)]. *)
Definition savingStatusValues : list SavingStatus := [PROPOSED; APPROVED; REALIZED].

(** A line of the table [SavingIdea]. *)
Record SavingIdea : Type := mkSavingIdea {
  idea_id : string;
  idea_title : string;
  idea_service : string;
  idea_est_monthly_saving_usd : JS.number;
  idea_confidence : JS.number;
  idea_owner : string;
  idea_status : SavingStatus;
  idea_notes : option string;
  idea_createdAt : Z;
  idea_updatedAt : Z
}.

(** Lines 47-50: the [where] clause is [{ status }] when the parameter is
    one of the values of the enum, and [{}] otherwise. *)
Definition statusClause (statusParam : option string) : option SavingStatus :=
  if JS.truthy statusParam then
    find (fun s => String.eqb (statusName s) (JS.narrowed statusParam))
         savingStatusValues
  else None.

(** [orderBy: { createdAt: "desc" }]. *)
Definition newerFirst (a b : SavingIdea) : Prop :=
  idea_createdAt b <= idea_createdAt a.

#[global] Instance newerFirst_dec : RelDecision newerFirst.
Proof. intros a b. unfold newerFirst. apply _. Defined.

Definition satisfiesClause (clause : option SavingStatus) (idea : SavingIdea)
  : bool :=
  match clause with
  | Some s => bool_decide (idea_status idea = s)
  | None => true
  end.

(** [prisma.savingIdea.findMany({ where, orderBy })]. *)
Definition findManyIdeas (clause : option SavingStatus) (table : list SavingIdea)
  : list SavingIdea :=
  merge_sort newerFirst
    (filter (fun idea => satisfiesClause clause idea = true) table).

Inductive SavingsBody : Type :=
| SavingsError (error : string)
| SavingsList (ideas : list SavingIdea).

(** Lines 31-68 of [savings/route.ts], in front of a reachable database
    holding [table]. *)
Definition savingsGET (authError : option (Response SavingsBody))
    (statusParam : option string) (table : list SavingIdea)
  : Response SavingsBody :=
  match authError with
  | Some denied => denied
  | None =>
      let whereClause := statusClause statusParam in
      let ideas := findManyIdeas whereClause table in
      mkResponse 200 (SavingsList ideas)
  end.

(** ** The page guard: [proxy.ts] *)

Definition protectedRoutes : list string := ["/dashboard"].
Definition authRoutes : list string := ["/login"].

(** [NextResponse.next()], or a redirect to a path of the same origin,
    with the value of its [redirect] parameter if it has one. *)
Inductive ProxyAnswer : Type :=
| ProxyNext
| ProxyRedirect (pathname : string) (redirectParam : option string).

(** Lines 9-35; [sessionCookie] is [request.cookies.get("session")?.value]. *)
Definition proxy (pathname : string) (sessionCookie : JS.value) : ProxyAnswer :=
  let hasSession := JS.truthy sessionCookie in
  let isProtectedRoute :=
    existsb (fun route => JS.startsWith pathname route) protectedRoutes in
  let isAuthRoute :=
    existsb (fun route => JS.startsWith pathname route) authRoutes in
  if isProtectedRoute && negb hasSession then
    ProxyRedirect "/login" (Some pathname)
  else if isAuthRoute && hasSession then ProxyRedirect "/dashboard" None
  else ProxyNext.

(** Three ideas. *)
Definition sampleIdeas : list SavingIdea :=
  [ mkSavingIdea "i1" "Rightsize EC2" "EC2" (JS.Dec false 1000 0)
      (JS.Dec false 8 (-1)) "web" PROPOSED None 100 100;
    mkSavingIdea "i2" "Archive logs" "S3" (JS.Dec false 200 0)
      (JS.Dec false 5 (-1)) "data" REALIZED (Some "done") 300 400;
    mkSavingIdea "i3" "Commitments" "BigQuery" (JS.Dec false 50 0)
      (JS.Dec false 9 (-1)) "data" PROPOSED None 200 200 ].

(* ===================================================================== *)
(** * Properties *)
(* ===================================================================== *)

(** ** The model on the scenarios of the specification and of the tests *)

Example parseFloat_plain : JS.parseFloat "100.50" = JS.Dec false 10050 (-2).
Proof. reflexivity. Qed.

Example parseFloat_prefix : JS.parseFloat "  -1.5e3 USD" = JS.Dec true 15 2.
Proof. reflexivity. Qed.

Example parseFloat_no_number : JS.parseFloat "n/a" = JS.NaN.
Proof. reflexivity. Qed.

Example parseFloat_after_no_break_space :
  JS.parseFloat (String (ascii_of_N 194) (String (ascii_of_N 160) "42.5"))
  = JS.Dec false 425 (-1).
Proof. reflexivity. Qed.

(** A numeral next to the double [10^12 - 2^-13] is taken, one next to the
    double [10^12] is not. *)
Example fitsDecimal_below :
  fitsDecimal (JS.parseFloat "999999999999.9999") = true.
Proof. reflexivity. Qed.

Example fitsDecimal_above :
  fitsDecimal (JS.parseFloat "999999999999.99995") = false.
Proof. reflexivity. Qed.

Example fitsDecimal_refund : fitsDecimal (JS.parseFloat "-5") = true.
Proof. reflexivity. Qed.

Example parseFloat_overflow : JS.parseFloat "-1.8e308" = JS.Infinity true.
Proof. vm_compute. reflexivity. Qed.

Example parseFloat_largest : JS.parseFloat "1.7976931348623157e308"
  = JS.Dec false 17976931348623157 292.
Proof. vm_compute. reflexivity. Qed.

Example parseFloat_underflow : JS.parseFloat "-1e-400" = JS.Dec true 0 0.
Proof. vm_compute. reflexivity. Qed.

Example parseFloat_smallest : JS.parseFloat "5e-324" = JS.Dec false 5 (-324).
Proof. vm_compute. reflexivity. Qed.

Example negative_zero_is_not_negative :
  JS.negative (JS.parseFloat "-0.00") = false /\
  JS.nonneg (JS.parseFloat "-0.00") = true.
Proof. split; reflexivity. Qed.

Example parseInt_decimal : JS.parseInt "90 days" = Some 90.
Proof. reflexivity. Qed.

Example parseInt_hexadecimal : JS.parseInt "0x1f" = Some 31.
Proof. reflexivity. Qed.

Example parseInt_no_number : JS.parseInt "week" = None.
Proof. reflexivity. Qed.

Example isoDate_new_year : JS.isoDate "2024-01-01" = Some 1704067200000.
Proof. reflexivity. Qed.

Example key_without_optional_columns :
  rowKey aws ec2Row = "2024-01-01_aws_undefined_EC2_undefined_undefined_100.50".
Proof. reflexivity. Qed.

(** Two rows without optional columns: both inserted, with the defaults. *)
Example upload_two_rows :
  let run := upload JS.isoDate testFile freshState in
  resultOf run = uploaded aws 2 0 /\
  map sr_team (records (world (stateOf run)))
  = [Some "unassigned"; Some "unassigned"] /\
  map sr_env (records (world (stateOf run))) = [Some "prod"; Some "prod"] /\
  eventsOf run = [QueryRaw; Operation None].
Proof. cbv zeta. repeat split; reflexivity. Qed.

(** The same row twice: one inserted, one skipped. *)
Example upload_same_row_twice :
  resultOf (upload JS.isoDate (mkFile "test.csv" [ec2Row; ec2Row]) freshState)
  = uploaded aws 1 1.
Proof. reflexivity. Qed.

(** The file of the test "should skip invalid rows". *)
Example upload_with_invalid_row :
  resultOf (upload JS.isoDate (mkFile "test.csv" [ec2Row; invalidRow; s3Row])
              freshState)
  = uploaded aws 2 1.
Proof. reflexivity. Qed.

(** A row with an empty cost as the only row. *)
Example upload_only_invalid_row :
  resultOf (upload JS.isoDate (mkFile "test.csv" [invalidRow]) freshState)
  = noValidRows.
Proof. reflexivity. Qed.

(** ** JavaScript primitives *)

Lemma truthy_Some (v : JS.value) :
  JS.truthy v = true -> exists s, v = Some s /\ s <> "".
Proof.
  destruct v as [s|]; simpl; [|discriminate].
  intros H. exists s. split; [reflexivity|].
  intros ->. discriminate.
Qed.

Lemma truthy_nonempty (s : string) : s <> "" -> JS.truthy (Some s) = true.
Proof.
  intros H. simpl. destruct (String.eqb_spec s ""); [contradiction|reflexivity].
Qed.

Lemma or_truthy_l (a b : JS.value) : JS.truthy a = true -> JS.or a b = a.
Proof. unfold JS.or. intros ->. reflexivity. Qed.

Lemma or_falsy_l (a b : JS.value) : JS.truthy a = false -> JS.or a b = b.
Proof. unfold JS.or. intros ->. reflexivity. Qed.

(** ** The loop of the upload handler *)

Section CollectFacts.

Variable newDate : string -> JS.date.
Variable cloud : Cloud.

Local Abbreviation loop := (collectFrom newDate cloud).
Local Abbreviation collected := (collect newDate cloud).
Local Abbreviation build := (buildRow newDate cloud).

(** One turn of the loop, by cases. *)
Lemma collectFrom_skip_invalid row rest seen acc :
  rowAdmissible row = false ->
  loop (row :: rest) seen acc = loop rest seen acc.
Proof.
  unfold rowAdmissible. intros H. simpl.
  destruct (missingRequired (normalize row)); [reflexivity|discriminate].
Qed.

Lemma collectFrom_skip_seen row rest seen acc :
  rowKey cloud row ∈ seen ->
  loop (row :: rest) seen acc = loop rest seen acc.
Proof.
  intros H. simpl. destruct (missingRequired (normalize row)); [reflexivity|].
  fold (rowKey cloud row). destruct (decide (rowKey cloud row ∈ seen)); [reflexivity|contradiction].
Qed.

Lemma collectFrom_keep row rest seen acc :
  rowAdmissible row = true ->
  rowKey cloud row ∉ seen ->
  loop (row :: rest) seen acc =
  loop rest ({[rowKey cloud row]} ∪ seen) (acc ++ [build (normalize row)]).
Proof.
  unfold rowAdmissible. intros Hadm Hnew. simpl.
  destruct (missingRequired (normalize row)); [discriminate|].
  fold (rowKey cloud row). destruct (decide (rowKey cloud row ∈ seen)); [contradiction|reflexivity].
Qed.

(** The rows already collected are never touched again. *)
Lemma collectFrom_acc rows : forall seen acc,
  loop rows seen acc =
  (fst (loop rows seen []), acc ++ snd (loop rows seen [])).
Proof.
  induction rows as [|row rest IH]; intros seen acc.
  - simpl. by rewrite app_nil_r.
  - destruct (rowAdmissible row) eqn:Hadm.
    + destruct (decide (rowKey cloud row ∈ seen)) as [Hin|Hout].
      * rewrite !collectFrom_skip_seen by assumption. apply IH.
      * rewrite !collectFrom_keep by assumption.
        rewrite (IH _ (acc ++ _)), (IH _ ([] ++ _)). simpl.
        by rewrite <- app_assoc.
    + rewrite !collectFrom_skip_invalid by assumption. apply IH.
Qed.

(** The set [seen] only grows. *)
Lemma collectFrom_seen_mono rows : forall seen acc key,
  key ∈ seen -> key ∈ fst (loop rows seen acc).
Proof.
  induction rows as [|row rest IH]; intros seen acc key Hin; [exact Hin|].
  simpl. destruct (missingRequired (normalize row)); [by apply IH|].
  destruct (decide _); apply IH; set_solver.
Qed.

Lemma collectFrom_app rows1 rows2 seen acc :
  loop (rows1 ++ rows2) seen acc =
  loop rows2 (fst (loop rows1 seen acc))
                    (snd (loop rows1 seen acc)).
Proof.
  revert seen acc. induction rows1 as [|row rest IH]; intros seen acc; [reflexivity|].
  simpl. destruct (missingRequired (normalize row)); [apply IH|].
  destruct (decide _); apply IH.
Qed.

(** A row that fails the validation leaves no trace in the loop. *)
Lemma collectFrom_invalid_anywhere rows1 row rows2 seen acc :
  rowAdmissible row = false ->
  loop (rows1 ++ row :: rows2) seen acc =
  loop (rows1 ++ rows2) seen acc.
Proof.
  intros H. rewrite !collectFrom_app. by apply collectFrom_skip_invalid.
Qed.

(** A row whose key has been seen leaves no trace either. *)
Lemma collectFrom_seen_anywhere rows1 row rows2 seen acc :
  rowKey cloud row ∈ seen ->
  loop (rows1 ++ row :: rows2) seen acc =
  loop (rows1 ++ rows2) seen acc.
Proof.
  intros H. rewrite !collectFrom_app. apply collectFrom_skip_seen.
  by apply collectFrom_seen_mono.
Qed.

(** After an admissible row its key is in [seen]. *)
Lemma collectFrom_later_duplicate rows1 a rows2 b rows3 seen acc :
  rowAdmissible a = true ->
  rowKey cloud b = rowKey cloud a ->
  loop (rows1 ++ a :: rows2 ++ b :: rows3) seen acc =
  loop (rows1 ++ a :: rows2 ++ rows3) seen acc.
Proof.
  intros Hadm Hkey.
  rewrite (collectFrom_app rows1 (a :: rows2 ++ b :: rows3)).
  rewrite (collectFrom_app rows1 (a :: rows2 ++ rows3)).
  set (seen1 := fst _). set (acc1 := snd _).
  destruct (decide (rowKey cloud a ∈ seen1)) as [Hin|Hout].
  - rewrite !(collectFrom_skip_seen a) by assumption.
    apply collectFrom_seen_anywhere. by rewrite Hkey.
  - rewrite !(collectFrom_keep a) by assumption.
    apply collectFrom_seen_anywhere. rewrite Hkey. set_solver.
Qed.

(** Every collected row was built from an admissible row of the input. *)
Lemma collectFrom_origin rows : forall seen acc v,
  v ∈ snd (loop rows seen acc) ->
  v ∈ acc \/
  exists row, row ∈ rows /\ rowAdmissible row = true /\
              v = build (normalize row).
Proof.
  induction rows as [|row rest IH]; intros seen acc v Hv; [by left|].
  destruct (rowAdmissible row) eqn:Hadm.
  - destruct (decide (rowKey cloud row ∈ seen)) as [Hin|Hout].
    + rewrite collectFrom_skip_seen in Hv by assumption.
      destruct (IH _ _ _ Hv) as [?|(r & ? & ? & ?)]; [by left|].
      right. exists r. split; [by right|done].
    + rewrite collectFrom_keep in Hv by assumption.
      destruct (IH _ _ _ Hv) as [Hacc|(r & ? & ? & ?)].
      * apply elem_of_app in Hacc as [?|Hlast]; [by left|].
        apply list_elem_of_singleton in Hlast. right. exists row.
        split; [by left|done].
      * right. exists r. split; [by right|done].
  - rewrite collectFrom_skip_invalid in Hv by assumption.
    destruct (IH _ _ _ Hv) as [?|(r & ? & ? & ?)]; [by left|].
    right. exists r. split; [by right|done].
Qed.



(** The first admissible row is always collected. *)
Lemma collect_nonempty rows :
  Exists (fun row => rowAdmissible row = true) rows -> collected rows <> [].
Proof.
  unfold collect. intros Hex.
  induction Hex as [row rest Hadm|row rest Hex IH].
  - rewrite collectFrom_keep; [|assumption|set_solver].
    rewrite collectFrom_acc. simpl. intros H. discriminate.
  - destruct (rowAdmissible row) eqn:Hadm.
    + rewrite collectFrom_keep; [|assumption|set_solver].
      rewrite collectFrom_acc. simpl. intros H. discriminate.
    + rewrite collectFrom_skip_invalid by assumption. exact IH.
Qed.

Lemma collect_empty rows :
  Forall (fun row => rowAdmissible row = false) rows -> collected rows = [].
Proof.
  unfold collect. generalize (∅ : gset string).
  induction 1 as [|row rest Hadm Hrest IH]; [reflexivity|].
  by rewrite collectFrom_skip_invalid.
Qed.

End CollectFacts.

(** ** The bulk insert *)


Lemma keyTaken_true key table :
  keyTaken key table = true <-> key ∈ map sr_dedupe_key table.
Proof.
  unfold keyTaken. rewrite existsb_exists. split.
  - intros (r & Hin & Heq). apply String.eqb_eq in Heq. subst key.
    apply list_elem_of_fmap. exists r. split; [reflexivity|].
    by apply list_elem_of_In.
  - intros Hin. apply list_elem_of_fmap in Hin as (r & -> & Hr).
    exists r. split; [by apply list_elem_of_In|apply String.eqb_refl].
Qed.

Lemma keyTaken_false key table :
  keyTaken key table = false <-> key ∉ map sr_dedupe_key table.
Proof.
  rewrite <- keyTaken_true. destruct (keyTaken key table); split; try done.
Qed.


(** Keys that are all in the table: nothing is appended. *)
Lemma insertSkipping_taken data : forall table count,
  (forall v, v ∈ data -> keyTaken (vr_dedupe_key v) table = true) ->
  insertSkipping data table count = (table, count).
Proof.
  induction data as [|v rest IH]; intros table count Htaken; [reflexivity|].
  cbn [insertSkipping]. rewrite (Htaken v) by (by left).
  apply IH. intros w Hw. apply Htaken. by right.
Qed.

(** The unique index is an invariant of the bulk insert. *)
Lemma insertSkipping_unique data : forall table count,
  NoDup (map sr_dedupe_key table) ->
  NoDup (map sr_dedupe_key (fst (insertSkipping data table count))).
Proof.
  induction data as [|v rest IH]; intros table count Hnd; [exact Hnd|].
  cbn [insertSkipping]. destruct (keyTaken (vr_dedupe_key v) table) eqn:Hk.
  - by apply IH.
  - apply IH. rewrite map_app. apply NoDup_app. split; [assumption|]. split.
    + intros key Hin Hin'. simpl in Hin'. apply list_elem_of_singleton in Hin'.
      subst key. apply keyTaken_false in Hk. contradiction.
    + simpl. apply NoDup_singleton.
Qed.

(** ** Running the state monad *)

Section MonadFacts.

Context {W : Type}.

Lemma bind_run {A B : Type} (m : M W A) (k : A -> M W B) st a st1 evs1 b st2 evs2 :
  m st = (a, st1, evs1) ->
  k a st1 = (b, st2, evs2) ->
  bind m k st = (b, st2, evs1 ++ evs2).
Proof. unfold bind. intros -> ->. reflexivity. Qed.

Lemma call_run {A : Type} (f : W -> Outcome A * W) (ev : Outcome A -> Event)
    st r w :
  f (world st) = (r, w) ->
  call f ev st = (r, mkState (isConnected st) w, [ev r]).
Proof. unfold call. intros ->. reflexivity. Qed.

End MonadFacts.

(** ** One upload in front of a reachable database *)

Lemma ensureConnection_reachable (st : State Db) :
  ensureConnection reachable st =
  (tt, mkState true (world st), if isConnected st then [] else [QueryRaw]).
Proof. by destruct st as [[] db]. Qed.

(** The wrapper around an operation that returns at once. *)
Lemma withRetry_reachable_returns {T : Type}
    (operation : Db -> Outcome T * Db) (left : nat) (delay : Z)
    (st : State Db) (v : T) (db' : Db) :
  operation (world st) = (Returned v, db') ->
  withRetry reachable reachable reachable operation (S left) delay st =
  (Returned v, mkState true db',
   (if isConnected st then [] else [QueryRaw]) ++ [Operation None]).
Proof.
  intros Hop. unfold withRetry. cbn [attempts].
  etrans.
  - eapply bind_run; [apply ensureConnection_reachable|].
    eapply bind_run; [apply call_run; exact Hop|reflexivity].
  - reflexivity.
Qed.


Lemma length_nonzero {A : Type} (l : list A) :
  l <> [] -> (length l =? 0)%nat = false.
Proof. destruct l; [congruence|reflexivity]. Qed.

(** The wrapper around an operation that throws an error that is not
    classified as a connection error: one call, and the error is thrown
    again. *)
Lemma withRetry_reachable_throws {T : Type}
    (operation : Db -> Outcome T * Db) (left : nat) (delay : Z)
    (st : State Db) (e : Thrown) (db' : Db) :
  operation (world st) = (Threw e, db') ->
  isConnectionError e = false ->
  withRetry reachable reachable reachable operation (S left) delay st =
  (Threw e, mkState true db',
   (if isConnected st then [] else [QueryRaw]) ++ [Operation (Some e)]).
Proof.
  intros Hop Hclass. unfold withRetry. cbn [attempts].
  etrans.
  - eapply bind_run; [apply ensureConnection_reachable|].
    eapply bind_run; [apply call_run; exact Hop|].
    cbv beta iota. rewrite Hclass. reflexivity.
  - reflexivity.
Qed.

(** What one upload does when at least one row is collected and every line
    of the payload is storable. *)
Lemma upload_run newDate (file : File) (st : State Db) :
  let cloud := detectCloud (file_name file) in
  let validRows := collect newDate cloud (file_rows file) in
  let ins := insertSkipping validRows (records (world st)) 0 in
  validRows <> [] ->
  forallb storable validRows = true ->
  upload newDate file st =
  (uploaded cloud (snd ins) (Z.of_nat (length (file_rows file)) - snd ins),
   mkState true (mkDb (fst ins) (received (world st) ++ [validRows])),
   (if isConnected st then [] else [QueryRaw]) ++ [Operation None]).
Proof.
  intros cloud validRows ins Hvalid Hok. unfold upload, POST.
  assert (Hrows : file_rows file <> []).
  { intros Heq. apply Hvalid. unfold validRows. by rewrite Heq. }
  rewrite (length_nonzero _ Hrows).
  fold cloud. fold validRows. rewrite (length_nonzero _ Hvalid).
  assert (Hcreate : createMany validRows true (world st) =
            (Returned (snd ins),
             mkDb (fst ins) (received (world st) ++ [validRows]))).
  { unfold createMany. rewrite Hok. fold ins. by destruct ins as [table count]. }
  etrans.
  - eapply bind_run.
    + apply withRetry_reachable_returns. exact Hcreate.
    + reflexivity.
  - by rewrite app_nil_r.
Qed.

(** What it does when the payload has a line that is not storable: the bulk
    insert is called once, throws, and the answer is the error 500; the
    table is as it was. *)
Lemma upload_refused newDate (file : File) (st : State Db) :
  let cloud := detectCloud (file_name file) in
  let validRows := collect newDate cloud (file_rows file) in
  validRows <> [] ->
  forallb storable validRows = false ->
  upload newDate file st =
  (uploadFailed,
   mkState true (mkDb (records (world st)) (received (world st) ++ [validRows])),
   (if isConnected st then [] else [QueryRaw])
   ++ [Operation (Some refusedPayload)]).
Proof.
  intros cloud validRows Hvalid Hok. unfold upload, POST.
  assert (Hrows : file_rows file <> []).
  { intros Heq. apply Hvalid. unfold validRows. by rewrite Heq. }
  rewrite (length_nonzero _ Hrows).
  fold cloud. fold validRows. rewrite (length_nonzero _ Hvalid).
  assert (Hcreate : createMany validRows true (world st) =
            (Threw refusedPayload,
             mkDb (records (world st)) (received (world st) ++ [validRows]))).
  { unfold createMany. by rewrite Hok. }
  etrans.
  - eapply bind_run.
    + apply withRetry_reachable_throws; [exact Hcreate|reflexivity].
    + reflexivity.
  - by rewrite app_nil_r.
Qed.

(** What it does when no row is collected: nothing. *)
Lemma upload_rejected newDate (file : File) (st : State Db) :
  collect newDate (detectCloud (file_name file)) (file_rows file) = [] ->
  upload newDate file st =
  (if (length (file_rows file) =? 0)%nat then emptyCsv else noValidRows, st, []).
Proof.
  intros Hnone. unfold upload, POST.
  destruct (length (file_rows file) =? 0)%nat; [reflexivity|].
  by rewrite Hnone.
Qed.

(** The payloads that one upload adds to the log of the database. *)
Lemma upload_received newDate (file : File) (st : State Db) :
  let validRows :=
    collect newDate (detectCloud (file_name file)) (file_rows file) in
  received (world (stateOf (upload newDate file st))) =
  received (world st) ++ (if decide (validRows = []) then [] else [validRows]).
Proof.
  intros validRows. destruct (decide (validRows = [])) as [Hnone|Hsome].
  - rewrite upload_rejected by exact Hnone. simpl. by rewrite app_nil_r.
  - destruct (forallb storable validRows) eqn:Hok.
    + rewrite upload_run by assumption. reflexivity.
    + rewrite upload_refused by assumption. reflexivity.
Qed.

Lemma insertSkipping_origin data : forall table count r,
  r ∈ fst (insertSkipping data table count) ->
  r ∈ table \/ exists v, v ∈ data /\ r = toRecord v.
Proof.
  induction data as [|v rest IH]; intros table count r Hr; [by left|].
  cbn [insertSkipping] in Hr. destruct (keyTaken (vr_dedupe_key v) table).
  - destruct (IH _ _ _ Hr) as [?|(w & ? & ?)]; [by left|].
    right. exists w. split; [by right|done].
  - destruct (IH _ _ _ Hr) as [Hin|(w & ? & ?)].
    + apply elem_of_app in Hin as [?|Hlast]; [by left|].
      apply list_elem_of_singleton in Hlast. right. exists v. split; [by left|done].
    + right. exists w. split; [by right|done].
Qed.

Lemma collect_origin newDate cloud rows v :
  v ∈ collect newDate cloud rows ->
  exists row, row ∈ rows /\ rowAdmissible row = true /\
              v = buildRow newDate cloud (normalize row).
Proof.
  unfold collect. intros Hv.
  destruct (collectFrom_origin _ _ _ _ _ _ Hv) as [Hnil|Hrow]; [|exact Hrow].
  by apply elem_of_nil in Hnil.
Qed.


Lemma collect_invalid_anywhere newDate cloud rows1 row rows2 :
  rowAdmissible row = false ->
  collect newDate cloud (rows1 ++ row :: rows2) =
  collect newDate cloud (rows1 ++ rows2).
Proof.
  intros H. unfold collect. by rewrite collectFrom_invalid_anywhere.
Qed.

Lemma uploaded_not_rejected cloud inserted skipped :
  uploaded cloud inserted skipped <> emptyCsv /\
  uploaded cloud inserted skipped <> noValidRows.
Proof. split; discriminate. Qed.

(** ** C1: uploading the same file twice *)




(** ** C2: the validation gate *)

(** C2: a row whose date, service or cost is empty or absent is in no
    payload handed to the bulk insert, whatever its other cells hold: every
    line of a payload is built from a row that passes the validation, the
    database ends in the state it would reach had the row not been in the
    file, and the only difference in the answer is [skipped], one higher. *)
Theorem validation_gate newDate (name : string) (rows1 : list Row) (row : Row)
    (rows2 : list Row) (st : State Db) :
  JS.truthy (n_date (normalize row)) = false \/
  JS.truthy (n_service (normalize row)) = false \/
  JS.truthy (n_cost_usd (normalize row)) = false ->
  let cloud := detectCloud name in
  let run := upload newDate (mkFile name (rows1 ++ row :: rows2)) st in
  let without := upload newDate (mkFile name (rows1 ++ rows2)) st in
  (exists handed,
     received (world (stateOf run)) = received (world st) ++ handed /\
     forall payload v, payload ∈ handed -> v ∈ payload ->
       exists kept, kept ∈ rows1 ++ rows2 /\ rowAdmissible kept = true /\
                    v = buildRow newDate cloud (normalize kept)) /\
  stateOf run = stateOf without /\
  (forall message inserted skipped,
     body (resultOf without) = UploadSummary message inserted skipped ->
     body (resultOf run) = UploadSummary message inserted (skipped + 1)).
Proof.
  intros Hmissing cloud run without.
  assert (Hadm : rowAdmissible row = false).
  { unfold rowAdmissible, missingRequired.
    destruct Hmissing as [->|[->| ->]]; simpl; by rewrite ?orb_true_r. }
  pose proof (collect_invalid_anywhere newDate cloud rows1 row rows2 Hadm) as Hsame.
  split; [|split].
  - eexists. split; [apply upload_received|].
    cbn [file_name file_rows]. fold cloud. rewrite Hsame.
    intros payload v Hpayload Hv. destruct (decide _) as [|Hsome].
    + by apply elem_of_nil in Hpayload.
    + apply list_elem_of_singleton in Hpayload. subst payload.
      by apply collect_origin.
  - unfold run, without.
    destruct (decide (collect newDate cloud (rows1 ++ rows2) = [])) as [Hnone|Hsome].
    + rewrite !upload_rejected; [reflexivity|exact Hnone|].
      cbn [file_name file_rows]. fold cloud. by rewrite Hsame.
    + destruct (forallb storable (collect newDate cloud (rows1 ++ rows2)))
        eqn:Hok.
      * rewrite !upload_run; cbn [file_name file_rows]; fold cloud;
          rewrite ?Hsame; done.
      * rewrite !upload_refused; cbn [file_name file_rows]; fold cloud;
          rewrite ?Hsame; done.
  - unfold run, without. intros message inserted skipped.
    destruct (decide (collect newDate cloud (rows1 ++ rows2) = [])) as [Hnone|Hsome].
    + rewrite (upload_rejected _ (mkFile name (rows1 ++ rows2))) by exact Hnone.
      cbn [resultOf fst]. destruct (_ =? _)%nat; discriminate.
    + destruct (forallb storable (collect newDate cloud (rows1 ++ rows2)))
        eqn:Hok.
      * rewrite !upload_run; cbn [file_name file_rows]; fold cloud;
          rewrite ?Hsame; [|done..].
        cbn [resultOf fst body uploaded]. intros [= <- <- <-]. f_equal.
        rewrite !length_app. cbn [length]. lia.
      * rewrite (upload_refused _ (mkFile name (rows1 ++ rows2)));
          cbn [file_name file_rows]; fold cloud; [|done..].
        discriminate.
Qed.

Lemma validation_gate_witness :
  stateOf (upload JS.isoDate (mkFile "test.csv" [ec2Row; invalidRow; s3Row])
             freshState)
  = stateOf (upload JS.isoDate testFile freshState).
Proof.
  apply (validation_gate JS.isoDate "test.csv" [ec2Row] invalidRow [s3Row]
           freshState).
  left. reflexivity.
Defined.

(** ** C6: the two rejections *)

Section Rejections.

Context {W : Type}.
Variable newDate : string -> JS.date.
Variable queryRaw disconnect connect : W -> Outcome unit * W.
Variable bulkInsert : list ValidRow -> bool -> W -> Outcome Z * W.

Local Abbreviation handler :=
  (POST newDate queryRaw disconnect connect bulkInsert None).

(** C6: the answer is the error "Empty CSV file" exactly when the parser
    found no row, and the other 400 error, "No valid rows found after
    parsing", exactly when it found rows of which none was collected (none
    passed the validation); in both cases the handler ends before it calls
    the persistence layer: no event, and the state is the one it started
    in.  This holds whatever the persistence layer would have done. *)
Theorem upload_rejections (file : File) (st : State W) :
  let run := handler (Some file) st in
  let validRows :=
    collect newDate (detectCloud (file_name file)) (file_rows file) in
  (resultOf run = emptyCsv <-> file_rows file = []) /\
  (resultOf run = noValidRows <-> file_rows file <> [] /\ validRows = []) /\
  (validRows = [] <->
   Forall (fun row => rowAdmissible row = false) (file_rows file)) /\
  emptyCsv <> noValidRows /\
  (resultOf run = emptyCsv \/ resultOf run = noValidRows ->
   stateOf run = st /\ eventsOf run = []).
Proof.
  intros run validRows.
  assert (Hshape :
    (file_rows file = [] /\ run = (emptyCsv, st, [])) \/
    (file_rows file <> [] /\ validRows = [] /\ run = (noValidRows, st, [])) \/
    (file_rows file <> [] /\ validRows <> [] /\
     (status (resultOf run) = 200 \/ status (resultOf run) = 500))).
  { unfold run, POST. fold validRows.
    destruct (file_rows file) as [|row rest] eqn:Hrows.
    - left. done.
    - right. cbn [length Nat.eqb]. destruct validRows as [|v vs] eqn:Hvalid.
      + left. done.
      + right. split; [done|]. split; [done|]. cbn [length Nat.eqb].
        unfold bind. destruct (withRetry _ _ _ _ _ _ st) as [[[count|e] st'] evs];
          [left|right]; reflexivity. }
  assert (Hforall : validRows = [] <->
            Forall (fun row => rowAdmissible row = false) (file_rows file)).
  { split; [|apply collect_empty].
    intros Hnone. apply Forall_forall. intros row Hin.
    destruct (rowAdmissible row) eqn:Hadm; [|reflexivity].
    exfalso. apply (collect_nonempty newDate (detectCloud (file_name file))
                      (file_rows file)); [|exact Hnone].
    apply Exists_exists. by exists row. }
  split; [|split; [|split; [exact Hforall|split; [discriminate|]]]].
  - destruct Hshape as [[Hrows ->]|[(Hrows & _ & ->)|(Hrows & _ & Hstatus)]].
    + done.
    + split; [discriminate|done].
    + split; [|done]. intros Heq. rewrite Heq in Hstatus.
      destruct Hstatus; discriminate.
  - destruct Hshape as [[Hrows ->]|[(Hrows & Hnone & ->)|(Hrows & Hsome & Hstatus)]].
    + split; [discriminate|]. intros [? _]. done.
    + done.
    + split; [|intros [_ ?]; done]. intros Heq. rewrite Heq in Hstatus.
      destruct Hstatus; discriminate.
  - destruct Hshape as [[Hrows ->]|[(Hrows & Hnone & ->)|(Hrows & Hsome & Hstatus)]].
    + done.
    + done.
    + intros [Heq|Heq]; rewrite Heq in Hstatus; destruct Hstatus; discriminate.
Qed.

End Rejections.

Lemma upload_rejections_witness :
  resultOf (upload JS.isoDate (mkFile "test.csv" [invalidRow]) freshState)
  = noValidRows /\
  stateOf (upload JS.isoDate (mkFile "test.csv" [invalidRow]) freshState)
  = freshState.
Proof.
  destruct (upload_rejections JS.isoDate reachable reachable reachable createMany
              (mkFile "test.csv" [invalidRow]) freshState)
    as (_ & Hno & _ & _ & Hstate).
  assert (Hres : resultOf (upload JS.isoDate (mkFile "test.csv" [invalidRow])
                             freshState) = noValidRows).
  { apply Hno. split; [discriminate|reflexivity]. }
  split; [exact Hres|]. apply Hstate. right. exact Hres.
Defined.

(** ** C7: the sign of the cost *)

(** C7, as stated, at a file with one refund line: the row passes the
    validation and the line that is persisted has a negative cost. *)
Lemma negative_cost_persisted :
  let file := mkFile "aws-refunds.csv" [refundRow] in
  let table := records (world (stateOf (upload JS.isoDate file freshState))) in
  Forall (fun row => rowAdmissible row = true) (file_rows file) /\
  map sr_cost_usd table = [JS.Dec true 5 0] /\
  Forall (fun r => JS.negative (sr_cost_usd r) = true) table /\
  ~ Forall (fun r => JS.nonneg (sr_cost_usd r) = true) table.
Proof.
  cbv zeta. split; [compute_done|]. split; [reflexivity|].
  split; [compute_done|].
  intros H. vm_compute in H. inversion H as [|? ? Hneg _]. discriminate.
Qed.

(** C7 (amended): the cost of every line that an upload adds to the table
    is [parseFloat] of the raw cost cell of a row of the file that passed
    the presence-based validation; no check on its sign is made.  So the
    costs in the table are non-negative whenever they were before and
    every such cell parses to a non-negative number. *)
Theorem cost_is_parsed_cell newDate (file : File) (st : State Db) :
  let table := records (world (stateOf (upload newDate file st))) in
  (forall r, r ∈ table ->
     r ∈ records (world st) \/
     exists row, row ∈ file_rows file /\ rowAdmissible row = true /\
       sr_cost_usd r = JS.parseFloat (JS.narrowed (n_cost_usd (normalize row)))) /\
  (Forall (fun r => JS.nonneg (sr_cost_usd r) = true) (records (world st)) ->
   Forall (fun row => rowAdmissible row = true ->
             JS.nonneg (JS.parseFloat (JS.narrowed (n_cost_usd (normalize row))))
             = true) (file_rows file) ->
   Forall (fun r => JS.nonneg (sr_cost_usd r) = true) table).
Proof.
  intros table.
  assert (Horigin : forall r, r ∈ table ->
     r ∈ records (world st) \/
     exists row, row ∈ file_rows file /\ rowAdmissible row = true /\
       sr_cost_usd r = JS.parseFloat (JS.narrowed (n_cost_usd (normalize row)))).
  { intros r Hr. unfold table in Hr.
    set (cloud := detectCloud (file_name file)).
    destruct (decide (collect newDate cloud (file_rows file) = [])) as [Hnone|Hsome].
    - rewrite upload_rejected in Hr by exact Hnone. by left.
    - destruct (forallb storable (collect newDate cloud (file_rows file)))
        eqn:Hok; [|rewrite upload_refused in Hr by assumption; by left].
      rewrite upload_run in Hr by assumption.
      cbn [stateOf fst snd world records] in Hr.
      apply insertSkipping_origin in Hr as [?|(v & Hv & ->)]; [by left|].
      right. apply collect_origin in Hv as (row & Hin & Hadm & ->).
      exists row. done. }
  split; [exact Horigin|].
  intros Hbefore Hcells. apply Forall_forall. intros r Hr.
  destruct (Horigin r Hr) as [Hold|(row & Hin & Hadm & ->)].
  - by apply (proj1 (Forall_forall _ _) Hbefore).
  - by apply (proj1 (Forall_forall _ _) Hcells row).
Qed.

Lemma cost_is_parsed_cell_witness :
  Forall (fun r => JS.nonneg (sr_cost_usd r) = true)
    (records (world (stateOf (upload JS.isoDate testFile freshState)))).
Proof.
  apply (cost_is_parsed_cell JS.isoDate testFile freshState).
  - constructor.
  - compute_done.
Defined.

(** ** C3: the cloud of a file *)

Lemma startsWith_spec s prefix :
  JS.startsWith s prefix = true <-> exists after, s = prefix +:+ after.
Proof.
  revert s. induction prefix as [|p prefix IH]; intros s.
  - split; [intros _; by exists s|by destruct s].
  - destruct s as [|c s]; simpl.
    + split; [discriminate|intros [after Heq]; discriminate].
    + rewrite andb_true_iff, IH. split.
      * intros [Hc [after ->]]. apply Ascii.eqb_eq in Hc. subst c. by exists after.
      * intros [after [= -> ->]]. split; [apply Ascii.eqb_refl|by exists after].
Qed.

Lemma includes_spec s needle :
  JS.includes s needle = true <-> contains s needle.
Proof.
  unfold contains. induction s as [|c s IH].
  - cbn [JS.includes]. rewrite orb_false_r, startsWith_spec. split.
    + intros [after Heq]. by exists "", after.
    + intros (before & after & Heq). destruct before; [by exists after|discriminate].
  - cbn [JS.includes]. rewrite orb_true_iff, IH, startsWith_spec. split.
    + intros [[after Heq]|(before & after & ->)].
      * by exists "", after.
      * by exists (String c before), after.
    + intros (before & after & Heq). destruct before as [|b before].
      * left. by exists after.
      * right. injection Heq as -> ->. by exists before, after.
Qed.

Lemma toLowerCase_app s t :
  JS.toLowerCase (s +:+ t) = JS.toLowerCase s +:+ JS.toLowerCase t.
Proof. induction s as [|c s IH]; [reflexivity|]. simpl. by rewrite IH. Qed.

(** The three branches of lines 56-59 leave two cases. *)
Lemma detectCloud_cases name :
  detectCloud name =
  if JS.includes (JS.toLowerCase name) "gcp" then gcp else aws.
Proof.
  unfold detectCloud. destruct (JS.includes _ "gcp"); [reflexivity|].
  by destruct (JS.includes _ "aws").
Qed.

(** C3: the cloud is a function of the lowercased file name alone: [gcp]
    when that name contains "gcp" (so when the name contains it in any
    mix of cases, anywhere), and [aws] otherwise, whether it contains "aws"
    or neither token; and every collected row, and every dedupe key,
    carries that one value. *)
Theorem cloud_inference newDate (name : string) (rows : list Row) :
  let cloud := detectCloud name in
  (contains (JS.toLowerCase name) "gcp" -> cloud = gcp) /\
  (forall before token after,
     name = before +:+ token +:+ after -> JS.toLowerCase token = "gcp" ->
     cloud = gcp) /\
  (~ contains (JS.toLowerCase name) "gcp" -> cloud = aws) /\
  (forall v, v ∈ collect newDate cloud rows ->
     vr_cloud v = cloud /\
     exists row, row ∈ rows /\
       vr_dedupe_key v =
       JS.template (n_date (normalize row)) +:+ "_" +:+ cloudString cloud
       +:+ "_" +:+ JS.template (n_account_or_project (normalize row))
       +:+ "_" +:+ JS.template (n_service (normalize row))
       +:+ "_" +:+ JS.template (n_team (normalize row))
       +:+ "_" +:+ JS.template (n_env (normalize row))
       +:+ "_" +:+ JS.template (n_cost_usd (normalize row))).
Proof.
  intros cloud.
  assert (Hgcp : contains (JS.toLowerCase name) "gcp" -> cloud = gcp).
  { intros H. apply includes_spec in H. unfold cloud.
    by rewrite detectCloud_cases, H. }
  split; [exact Hgcp|]. split; [|split].
  - intros before token after -> Htoken. apply Hgcp.
    exists (JS.toLowerCase before), (JS.toLowerCase after).
    by rewrite !toLowerCase_app, Htoken.
  - intros H. unfold cloud. rewrite detectCloud_cases.
    destruct (JS.includes _ "gcp") eqn:Hin; [|reflexivity].
    exfalso. apply H. by apply includes_spec.
  - intros v Hv. apply collect_origin in Hv as (row & Hin & _ & ->).
    split; [reflexivity|]. exists row. split; [exact Hin|reflexivity].
Qed.

Lemma cloud_inference_witness :
  detectCloud "Billing-GCP-2024.csv" = gcp /\ detectCloud "aws-export.csv" = aws
  /\ detectCloud "march.csv" = aws.
Proof.
  split; [|split].
  - apply (cloud_inference JS.isoDate "Billing-GCP-2024.csv" [] : _ /\ _)
      with (before := "Billing-") (token := "GCP") (after := "-2024.csv");
      reflexivity.
  - apply (cloud_inference JS.isoDate "aws-export.csv" []).
    rewrite <- includes_spec. discriminate.
  - apply (cloud_inference JS.isoDate "march.csv" []).
    rewrite <- includes_spec. discriminate.
Defined.

(** ** C4: AWS-style and GCP-style headers *)

Lemma firstOf_insert_other (row : Row) a b c col v :
  col <> a -> col <> b -> col <> c ->
  firstOf (<[col := v]> row) a b c = firstOf row a b c.
Proof.
  intros Ha Hb Hc. unfold firstOf. by rewrite !lookup_insert_ne.
Qed.

Lemma firstOf_absent (row : Row) a b c :
  row !! a = None -> row !! b = None -> row !! c = None ->
  firstOf row a b c = None.
Proof. unfold firstOf. by intros -> -> ->. Qed.

Lemma firstOf_only_second (row : Row) a b c v :
  row !! a = None -> row !! b = Some v -> row !! c = None ->
  firstOf row a b c = JS.or (Some v) None.
Proof. unfold firstOf. intros -> -> ->. reflexivity. Qed.

Lemma firstOf_only_third (row : Row) a b c v :
  row !! a = None -> row !! b = None -> row !! c = Some v ->
  firstOf row a b c = Some v.
Proof. unfold firstOf. by intros -> -> ->. Qed.

(** Two rows that the loop cannot tell apart. *)
Lemma collectFrom_cons_alike newDate cloud a b rest seen acc :
  missingRequired (normalize a) = missingRequired (normalize b) ->
  (missingRequired (normalize a) = false -> normalize a = normalize b) ->
  collectFrom newDate cloud (a :: rest) seen acc =
  collectFrom newDate cloud (b :: rest) seen acc.
Proof.
  intros Hsame Hnorm. cbn [collectFrom]. rewrite <- Hsame.
  destruct (missingRequired (normalize a)); [reflexivity|].
  by rewrite Hnorm.
Qed.

Section ColumnMapping.

Variables (d s c : string) (others : Row).
Hypothesis others_free : forall col, col ∈ requiredColumns -> others !! col = None.

Local Ltac free := apply others_free; compute_done.

Lemma normalize_awsStyle :
  normalize (awsStyle d s c others) =
  {| n_date := JS.or (Some d) None;
     n_account_or_project := n_account_or_project (normalize others);
     n_service := JS.or (Some s) None;
     n_team := n_team (normalize others);
     n_env := n_env (normalize others);
     n_cost_usd := JS.or (Some c) None |}.
Proof.
  unfold normalize, awsStyle. f_equal.
  - apply firstOf_only_second; simplify_map_eq; try done; free.
  - by rewrite !firstOf_insert_other.
  - apply firstOf_only_second; simplify_map_eq; try done; free.
  - by rewrite !firstOf_insert_other.
  - by rewrite !firstOf_insert_other.
  - apply firstOf_only_second; simplify_map_eq; try done; free.
Qed.

Lemma normalize_gcpStyle :
  normalize (gcpStyle d s c others) =
  {| n_date := Some d;
     n_account_or_project := n_account_or_project (normalize others);
     n_service := Some s;
     n_team := n_team (normalize others);
     n_env := n_env (normalize others);
     n_cost_usd := Some c |}.
Proof.
  unfold normalize, gcpStyle. f_equal.
  - apply firstOf_only_third; simplify_map_eq; try done; free.
  - by rewrite !firstOf_insert_other.
  - apply firstOf_only_third; simplify_map_eq; try done; free.
  - by rewrite !firstOf_insert_other.
  - by rewrite !firstOf_insert_other.
  - apply firstOf_only_third; simplify_map_eq; try done; free.
Qed.

Lemma styles_alike :
  missingRequired (normalize (awsStyle d s c others)) =
  missingRequired (normalize (gcpStyle d s c others)) /\
  (missingRequired (normalize (awsStyle d s c others)) = false ->
   normalize (awsStyle d s c others) = normalize (gcpStyle d s c others)).
Proof.
  rewrite normalize_awsStyle, normalize_gcpStyle.
  unfold missingRequired, JS.or. cbn [n_date n_service n_cost_usd].
  destruct (JS.truthy (Some d)) eqn:Hd, (JS.truthy (Some s)) eqn:Hs,
    (JS.truthy (Some c)) eqn:Hc;
    cbv iota beta; rewrite ?Hd, ?Hs, ?Hc; cbn [negb orb JS.truthy];
    (split; [reflexivity|]); intros; congruence.
Qed.

End ColumnMapping.

(** C4: take any row without the nine date, service and cost columns, and
    add the same three values once under the AWS-style headers and once
    under the GCP-style headers.  When the values are not empty the two
    rows normalize to the same six raw fields, the values themselves for
    date, service and cost, and so to the same dedupe key under every
    cloud; empty or not, both rows pass the validation or both fail it,
    and either can stand for the other in any file: the same rows are
    collected, with the same dedupe keys.  The cloud of what is collected
    is that of the file name. *)
Theorem column_mapping_equivalence newDate (d s c : string) (others : Row) :
  (forall col, col ∈ requiredColumns -> others !! col = None) ->
  let a := awsStyle d s c others in
  let g := gcpStyle d s c others in
  (d <> "" -> s <> "" -> c <> "" ->
   normalize a = normalize g /\
   n_date (normalize a) = Some d /\
   n_service (normalize a) = Some s /\
   n_cost_usd (normalize a) = Some c /\
   forall cloud, rowKey cloud a = rowKey cloud g) /\
  rowAdmissible a = rowAdmissible g /\
  (forall cloud before after,
     collect newDate cloud (before ++ a :: after) =
     collect newDate cloud (before ++ g :: after)) /\
  (forall name v,
     v ∈ collect newDate (detectCloud name) [a] ++
         collect newDate (detectCloud name) [g] ->
     vr_cloud v = detectCloud name).
Proof.
  intros Hfree a g.
  destruct (styles_alike d s c others Hfree) as [Hmiss Hnorm].
  fold a g in Hmiss, Hnorm.
  split; [|split; [|split]].
  - intros Hd Hs Hc.
    assert (Heq : normalize a = normalize g).
    { apply Hnorm. unfold a. rewrite normalize_awsStyle by exact Hfree.
      unfold missingRequired, JS.or. cbn [n_date n_service n_cost_usd].
      by rewrite !truthy_nonempty. }
    split; [exact Heq|]. rewrite Heq. unfold g.
    rewrite normalize_gcpStyle by exact Hfree.
    do 3 (split; [reflexivity|]). intros cloud. unfold rowKey.
    fold g. by rewrite <- Heq.
  - unfold rowAdmissible. by rewrite Hmiss.
  - intros cloud before after. unfold collect.
    rewrite !collectFrom_app. f_equal.
    by apply collectFrom_cons_alike.
  - intros name v Hv.
    apply elem_of_app in Hv as [Hv|Hv];
      apply collect_origin in Hv as (row & _ & _ & ->); reflexivity.
Qed.

Lemma column_mapping_equivalence_witness :
  rowKey gcp (awsStyle "2024-01-01" "Compute" "12.5" {[ "team" := "data" ]})
  = rowKey gcp (gcpStyle "2024-01-01" "Compute" "12.5" {[ "team" := "data" ]}).
Proof.
  apply (column_mapping_equivalence JS.isoDate "2024-01-01" "Compute" "12.5"
           {[ "team" := "data" ]}); [|discriminate..].
  intros col Hcol. apply lookup_singleton_ne.
  intros <-. revert Hcol. compute_done.
Defined.

(** ** C10: an absent optional field in the dedupe key *)

Lemma or_None (a b : JS.value) :
  JS.or a b = None -> JS.truthy a = false /\ b = None.
Proof.
  unfold JS.or. destruct (JS.truthy a) eqn:Ha; [|by intros ->].
  intros ->. discriminate.
Qed.

Lemma firstOf_None (row : Row) a b c :
  firstOf row a b c = None ->
  JS.truthy (row !! a) = false /\ JS.truthy (row !! b) = false /\
  row !! c = None.
Proof.
  unfold firstOf. intros H. apply or_None in H as [Hab Hc].
  unfold JS.or in Hab. destruct (JS.truthy (row !! a)) eqn:Ha; [congruence|].
  done.
Qed.

(** Writing a truthy value into one of the columns of a field that was
    read as [undefined] makes the field that value. *)
Lemma firstOf_fill (row : Row) a b c col v :
  a <> b -> a <> c -> b <> c ->
  firstOf row a b c = None ->
  col ∈ [a; b; c] ->
  JS.truthy (Some v) = true ->
  firstOf (<[col := v]> row) a b c = Some v.
Proof.
  intros Hab Hac Hbc Hnone Hcol Hv.
  apply firstOf_None in Hnone as (Ha & Hb & Hc).
  unfold firstOf. apply list_elem_of_In in Hcol.
  destruct Hcol as [<-|[<-|[<-|[]]]].
  - rewrite lookup_insert_eq. unfold JS.or at 2. rewrite Hv.
    by apply or_truthy_l.
  - rewrite lookup_insert_ne, lookup_insert_eq by done.
    unfold JS.or at 2. rewrite Ha. by apply or_truthy_l.
  - rewrite !lookup_insert_ne, lookup_insert_eq by done.
    unfold JS.or at 2. rewrite Ha. by apply or_falsy_l.
Qed.

(** C10: when an optional field (account or project, team, env) is read as
    [undefined], the dedupe key holds the text "undefined" in its place:
    the key is the date, the cloud, the account or project, the service,
    the team, the environment and the cost, in this order and joined by
    "_", with the nine letters "undefined" where the absent field stands.
    A row with the text "undefined" in one of the columns of that field,
    and otherwise the same cells, has the same dedupe key, and of the two
    rows the one that comes later in a file is dropped as a duplicate. *)
Theorem undefined_text_collides newDate (cloud : Cloud) (f : OptionalField)
    (column : string) (row : Row) :
  optionalValue f (normalize row) = JS.undefined ->
  column ∈ optionalColumns f ->
  let twin := <[column := "undefined"]> row in
  let date := JS.template (n_date (normalize row)) in
  let account := JS.template (n_account_or_project (normalize row)) in
  let service := JS.template (n_service (normalize row)) in
  let team := JS.template (n_team (normalize row)) in
  let env := JS.template (n_env (normalize row)) in
  let cost := JS.template (n_cost_usd (normalize row)) in
  JS.template (optionalValue f (normalize row)) = "undefined" /\
  rowKey cloud row =
    match f with
    | AccountOrProject =>
        date +:+ "_" +:+ cloudString cloud +:+ "_" +:+ "undefined" +:+ "_" +:+
        service +:+ "_" +:+ team +:+ "_" +:+ env +:+ "_" +:+ cost
    | Team =>
        date +:+ "_" +:+ cloudString cloud +:+ "_" +:+ account +:+ "_" +:+
        service +:+ "_" +:+ "undefined" +:+ "_" +:+ env +:+ "_" +:+ cost
    | Env =>
        date +:+ "_" +:+ cloudString cloud +:+ "_" +:+ account +:+ "_" +:+
        service +:+ "_" +:+ team +:+ "_" +:+ "undefined" +:+ "_" +:+ cost
    end /\
  optionalValue f (normalize twin) = Some "undefined" /\
  rowKey cloud twin = rowKey cloud row /\
  rowAdmissible twin = rowAdmissible row /\
  (rowAdmissible row = true ->
   forall rows1 rows2 rows3,
     collect newDate cloud (rows1 ++ row :: rows2 ++ twin :: rows3) =
     collect newDate cloud (rows1 ++ row :: rows2 ++ rows3) /\
     collect newDate cloud (rows1 ++ twin :: rows2 ++ row :: rows3) =
     collect newDate cloud (rows1 ++ twin :: rows2 ++ rows3)).
Proof.
  intros Habsent Hcolumn twin date account service team env cost.
  assert (Htext : rowKey cloud row =
    match f with
    | AccountOrProject =>
        date +:+ "_" +:+ cloudString cloud +:+ "_" +:+ "undefined" +:+ "_" +:+
        service +:+ "_" +:+ team +:+ "_" +:+ env +:+ "_" +:+ cost
    | Team =>
        date +:+ "_" +:+ cloudString cloud +:+ "_" +:+ account +:+ "_" +:+
        service +:+ "_" +:+ "undefined" +:+ "_" +:+ env +:+ "_" +:+ cost
    | Env =>
        date +:+ "_" +:+ cloudString cloud +:+ "_" +:+ account +:+ "_" +:+
        service +:+ "_" +:+ team +:+ "_" +:+ "undefined" +:+ "_" +:+ cost
    end).
  { unfold rowKey, dedupeKey.
    destruct f; cbn [optionalValue] in Habsent; by rewrite Habsent. }
  assert (Htwin : optionalValue f (normalize twin) = Some "undefined" /\
                  rowKey cloud twin = rowKey cloud row /\
                  rowAdmissible twin = rowAdmissible row).
  { unfold rowAdmissible, missingRequired, rowKey, dedupeKey, twin.
    destruct f; cbn [optionalValue optionalColumns] in *;
      unfold normalize in *; cbn [n_date n_account_or_project n_service
                                  n_team n_env n_cost_usd] in *;
      rewrite (firstOf_fill _ _ _ _ column "undefined") by done;
      rewrite Habsent;
      apply list_elem_of_In in Hcolumn;
      destruct Hcolumn as [<-|[<-|[<-|[]]]];
      rewrite !firstOf_insert_other by done; done. }
  destruct Htwin as (Hvalue & Hkey & Hadm).
  split; [by rewrite Habsent|]. split; [exact Htext|]. split; [exact Hvalue|].
  split; [exact Hkey|]. split; [exact Hadm|].
  intros Hrow rows1 rows2 rows3. unfold collect. split; f_equal.
  - by apply collectFrom_later_duplicate.
  - apply collectFrom_later_duplicate; [by rewrite Hadm|by rewrite Hkey].
Qed.

Lemma undefined_text_collides_witness :
  collect JS.isoDate aws [ec2Row; <["team" := "undefined"]> ec2Row]
  = collect JS.isoDate aws [ec2Row].
Proof.
  apply (undefined_text_collides JS.isoDate aws Team "team" ec2Row
           eq_refl ltac:(compute_done) : _ /\ _ /\ _ /\ _ /\ _ /\ _)
    with (rows1 := []) (rows2 := []) (rows3 := []).
  reflexivity.
Defined.

(** ** C9: which errors are retried, and when *)

Lemma operationOutcomes_app evs1 evs2 :
  operationOutcomes (evs1 ++ evs2) =
  operationOutcomes evs1 ++ operationOutcomes evs2.
Proof.
  induction evs1 as [|[] evs1 IH]; simpl; by rewrite ?IH.
Qed.

Lemma announcedDelays_app evs1 evs2 :
  announcedDelays (evs1 ++ evs2) = announcedDelays evs1 ++ announcedDelays evs2.
Proof.
  induction evs1 as [|[] evs1 IH]; simpl; by rewrite ?IH.
Qed.

Lemma waitedDelays_app evs1 evs2 :
  waitedDelays (evs1 ++ evs2) = waitedDelays evs1 ++ waitedDelays evs2.
Proof.
  induction evs1 as [|[] evs1 IH]; simpl; by rewrite ?IH.
Qed.

Lemma operationCalls_outcomes evs :
  operationCalls evs = length (operationOutcomes evs).
Proof.
  induction evs as [|[] evs IH]; simpl; by rewrite ?IH.
Qed.

Section RetryFacts.

Context {W T : Type}.
Variables queryRaw disconnect connect : W -> Outcome unit * W.
Variable operation : W -> Outcome T * W.

(** The connection check calls neither the operation nor the timer. *)
Lemma ensureConnection_quiet (st : State W) :
  exists st1 evs,
    ensureConnection queryRaw st = (tt, st1, evs) /\
    operationOutcomes evs = [] /\ announcedDelays evs = [] /\
    waitedDelays evs = [].
Proof.
  unfold ensureConnection, checkConnection, bind, getConnected, call.
  destruct (isConnected st); cbn.
  - by eexists _, _.
  - destruct (queryRaw (world st)) as [[[]|e] w]; cbn; by eexists _, _.
Qed.

(** Reconnecting waits for the delay, unless disconnecting fails. *)
Lemma reconnect_waits (delay : Z) (st : State W) :
  exists st1 evs,
    reconnect disconnect connect delay st = (tt, st1, evs) /\
    operationOutcomes evs = [] /\ announcedDelays evs = [] /\
    (waitedDelays evs = [delay] \/
     waitedDelays evs = [] /\ exists e w, disconnect (world st) = (Threw e, w)).
Proof.
  unfold reconnect, bind, call, emit, setConnected.
  destruct (disconnect (world st)) as [[[]|e] w] eqn:Hd; cbn.
  - destruct (connect w) as [[[]|e'] w']; cbn; eexists _, _;
      (split; [reflexivity|]); auto.
  - eexists _, _. split; [reflexivity|]. split; [done|]. split; [done|].
    right. split; [done|]. by exists e, w.
Qed.

Variables (maxRetries : nat) (initialDelay : Z).

Local Abbreviation loopFrom :=
  (attempts queryRaw disconnect connect operation maxRetries initialDelay).

(** One iteration of the loop, by the ways the operation can end. *)
Lemma attempts_step left' attempt lastError st st1 evs1 r w :
  ensureConnection queryRaw st = (tt, st1, evs1) ->
  operation (world st1) = (r, w) ->
  loopFrom (S left') attempt lastError st =
  match r with
  | Returned v =>
      (Returned v, mkState (isConnected st1) w, evs1 ++ [Operation None])
  | Threw e =>
      if isConnectionError e then
        if (attempt <? maxRetries)%nat then
          let delay := initialDelay * 2 ^ (Z.of_nat attempt - 1) in
          let '(_, st2, evs2) :=
            reconnect disconnect connect delay (mkState false w) in
          let '(res, st3, evs3) := loopFrom left' (S attempt) e st2 in
          (res, st3,
           evs1 ++ [Operation (Some e)] ++
           [WarnRetrying attempt maxRetries delay] ++ evs2 ++ evs3)
        else (Threw e, mkState false w, evs1 ++ [Operation (Some e)])
      else (Threw e, mkState (isConnected st1) w, evs1 ++ [Operation (Some e)])
  end.
Proof.
  intros Hensure Hop. cbn [attempts]. unfold bind at 1. rewrite Hensure.
  unfold bind at 1, call at 1. rewrite Hop.
  destruct r as [v|e]; [reflexivity|].
  destruct (isConnectionError e); [|reflexivity].
  unfold bind at 1, setConnected at 1. cbn [world].
  destruct (attempt <? maxRetries)%nat; [|reflexivity].
  unfold bind at 1, emit at 1. unfold bind at 1.
  destruct (reconnect _ _ _ _) as [[[] st2] evs2].
  destruct (loopFrom left' (S attempt) e st2) as [[res st3] evs3].
  reflexivity.
Qed.

(** The loop from any of its iterations on. *)
Lemma attempts_shape (left : nat) : forall attempt lastError st,
  (1 <= left)%nat ->
  (attempt + left = maxRetries + 1)%nat ->
  let run := loopFrom left attempt lastError st in
  exists retried last before,
    eventsOf run = before ++ [Operation last] /\
    operationOutcomes (eventsOf run) = map Some retried ++ [last] /\
    Forall (fun e => isConnectionError e = true) retried /\
    (length retried < left)%nat /\
    announcedDelays (eventsOf run) =
      map (fun i => initialDelay * 2 ^ (Z.of_nat (attempt + i) - 1))
          (seq 0 (length retried)) /\
    waitedDelays (eventsOf run) `sublist_of` announcedDelays (eventsOf run) /\
    ((forall w, exists w', disconnect w = (Returned tt, w')) ->
     waitedDelays (eventsOf run) = announcedDelays (eventsOf run)) /\
    match last with
    | None => exists v, resultOf run = Returned v
    | Some e =>
        resultOf run = Threw e /\
        (isConnectionError e = true -> (length retried + 1 = left)%nat)
    end.
Proof.
  induction left as [|left' IH]; intros attempt lastError st Hleft Hsum run; [lia|].
  destruct (ensureConnection_quiet st) as (st1 & evs1 & Hensure & Ho1 & Ha1 & Hw1).
  destruct (operation (world st1)) as [r w] eqn:Hop.
  pose proof (attempts_step left' attempt lastError st st1 evs1 r w Hensure Hop)
    as Hrun.
  fold run in Hrun. clearbody run.
  destruct r as [v|e].
  - (* the operation returns *)
    subst run. exists [], None, evs1. cbn [eventsOf resultOf fst snd].
    rewrite operationOutcomes_app, announcedDelays_app, waitedDelays_app,
      Ho1, Ha1, Hw1. cbn.
    repeat split; try done; try lia. by exists v.
  - destruct (isConnectionError e) eqn:Hconn.
    + destruct (attempt <? maxRetries)%nat eqn:Hlt.
      * (* a connection error with attempts left: retry *)
        apply Nat.ltb_lt in Hlt. cbv zeta in Hrun.
        set (delay := initialDelay * 2 ^ (Z.of_nat attempt - 1)) in *.
        destruct (reconnect_waits delay (mkState false w))
          as (st2 & evs2 & Hre & Ho2 & Ha2 & Hw2).
        rewrite Hre in Hrun.
        destruct (IH (S attempt) e st2 ltac:(lia) ltac:(lia))
          as (retried & last & before & Hev & Hout & Hall & Hlen & Hann
              & Hsub & Hwait & Hlast).
        destruct (loopFrom left' (S attempt) e st2) as [[res st3] evs3].
        cbn [eventsOf resultOf fst snd] in *. subst run.
        cbn [eventsOf resultOf fst snd].
        exists (e :: retried), last,
          (evs1 ++ [Operation (Some e)] ++
           [WarnRetrying attempt maxRetries delay] ++ evs2 ++ before).
        split.
        { rewrite Hev. by rewrite <- !app_assoc. }
        rewrite !operationOutcomes_app, !announcedDelays_app, !waitedDelays_app.
        cbn [operationOutcomes announcedDelays waitedDelays app].
        rewrite Ho1, Ha1, Hw1, Ho2, Ha2, Hout, Hann. cbn [app].
        split; [reflexivity|]. split; [by constructor|].
        split; [cbn; lia|]. split.
        { cbn [length seq map]. f_equal.
          - unfold delay. do 3 f_equal. lia.
          - rewrite <- seq_shift, map_map. apply map_ext. intros i.
            do 3 f_equal. lia. }
        split.
        { rewrite <- Hann. destruct Hw2 as [->|[-> _]].
          - by apply sublist_skip.
          - by apply sublist_cons. }
        split.
        { intros Hdisc. rewrite <- Hann, <- (Hwait Hdisc).
          destruct Hw2 as [->|[_ (e' & w' & Hthrew)]]; [reflexivity|].
          destruct (Hdisc (world (mkState false w))) as [w'' Hok]. congruence. }
        destruct last as [e'|].
        -- destruct Hlast as [Hres Hfull]. split; [exact Hres|].
           intros H. cbn. rewrite <- (Hfull H). lia.
        -- exact Hlast.
      * (* a connection error at the last attempt *)
        apply Nat.ltb_ge in Hlt. subst run.
        exists [], (Some e), evs1. cbn [eventsOf resultOf fst snd].
        rewrite operationOutcomes_app, announcedDelays_app, waitedDelays_app,
          Ho1, Ha1, Hw1. cbn.
        repeat split; try done; try lia.
    + (* any other error *)
      subst run. exists [], (Some e), evs1. cbn [eventsOf resultOf fst snd].
      rewrite operationOutcomes_app, announcedDelays_app, waitedDelays_app,
        Ho1, Ha1, Hw1. cbn.
      repeat split; try done; try lia. congruence.
Qed.

End RetryFacts.

(** C9 is what the wrapper is written to do (its doc comment promises an
    exponential backoff, and its warning a retry in [delay] ms), and not
    what it does when the client's [$disconnect] rejects.  At a server
    that refuses every connection and such a client, with the defaults:
    the error of the operation is classified as a connection error and the
    operation is called three times; the delays 500 and 1000 are
    announced, but no timer is set between the calls: the inner [try] is
    left before the wait, and each retry follows right after the
    warning. *)
Theorem retry_without_delay :
  let refused := ErrorObject "Error" "connect ECONNREFUSED 127.0.0.1:5432" in
  let run := withRetry answering stuck answering refusing
               defaultMaxRetries defaultInitialDelay (mkState false tt) in
  isConnectionError refused = true /\
  resultOf run = Threw refused /\
  operationCalls (eventsOf run) = 3%nat /\
  announcedDelays (eventsOf run) = [500; 1000] /\
  waitedDelays (eventsOf run) = [] /\
  eventsOf run =
  [ QueryRaw; Operation (Some refused);
    WarnRetrying 1 3 500; Disconnect; WarnReconnectFailed;
    QueryRaw; Operation (Some refused);
    WarnRetrying 2 3 1000; Disconnect; WarnReconnectFailed;
    QueryRaw; Operation (Some refused) ].
Proof. cbv zeta. repeat split; reflexivity. Qed.

(** What holds of every run of the wrapper (with at least one attempt
    allowed): the calls of the operation are a run of failures that were
    retried, followed by one last call.  Every failure that was retried is
    classified as a connection error, so an error that is not is the last
    call: it is handed to the caller as it is and nothing, neither a wait
    nor another call, comes after it.  There are fewer retries than
    [maxRetries]; the delay announced for the k-th retry is
    [initialDelay * 2^(k-1)] (the base, then twice as much each time), and
    the delays waited for are among them, all of them when disconnecting
    does not fail.  A connection error is handed to the caller only once
    [maxRetries] calls have been made. *)
Theorem retry_classification {W T : Type}
    (queryRaw disconnect connect : W -> Outcome unit * W)
    (operation : W -> Outcome T * W)
    (maxRetries : nat) (initialDelay : Z) (st : State W) :
  (1 <= maxRetries)%nat ->
  let run :=
    withRetry queryRaw disconnect connect operation maxRetries initialDelay st in
  exists retried last before,
    eventsOf run = before ++ [Operation last] /\
    operationOutcomes (eventsOf run) = map Some retried ++ [last] /\
    Forall (fun e => isConnectionError e = true) retried /\
    (length retried < maxRetries)%nat /\
    announcedDelays (eventsOf run) = backoff initialDelay (length retried) /\
    waitedDelays (eventsOf run) `sublist_of` announcedDelays (eventsOf run) /\
    ((forall w, exists w', disconnect w = (Returned tt, w')) ->
     waitedDelays (eventsOf run) = announcedDelays (eventsOf run)) /\
    match last with
    | None => exists v, resultOf run = Returned v
    | Some e =>
        resultOf run = Threw e /\
        (isConnectionError e = true -> S (length retried) = maxRetries)
    end.
Proof.
  intros Hmax run.
  destruct (attempts_shape queryRaw disconnect connect operation maxRetries
              initialDelay maxRetries 1%nat Undefined st Hmax ltac:(lia))
    as (retried & last & before & Hev & Hout & Hall & Hlen & Hann & Hsub
        & Hwait & Hlast).
  exists retried, last, before. fold run in Hev, Hout, Hann, Hsub, Hwait, Hlast.
  unfold withRetry in run. fold run in Hev, Hout, Hann, Hsub, Hwait, Hlast.
  split; [exact Hev|]. split; [exact Hout|]. split; [exact Hall|].
  split; [exact Hlen|]. split.
  { rewrite Hann. unfold backoff. apply map_ext. intros i. do 2 f_equal. lia. }
  split; [exact Hsub|]. split; [exact Hwait|].
  destruct last as [e|]; [|exact Hlast].
  destruct Hlast as [Hres Hfull]. split; [exact Hres|].
  intros H. specialize (Hfull H). lia.
Qed.

Lemma retry_classification_witness :
  let run := withRetry answering answering answering refusing 3 500
               (mkState false tt) in
  exists retried last before,
    eventsOf run = before ++ [Operation last] /\
    operationOutcomes (eventsOf run) = map Some retried ++ [last] /\
    Forall (fun e => isConnectionError e = true) retried /\
    (length retried < 3)%nat /\
    announcedDelays (eventsOf run) = backoff 500 (length retried) /\
    waitedDelays (eventsOf run) `sublist_of` announcedDelays (eventsOf run) /\
    ((forall w, exists w', answering w = (Returned tt, w')) ->
     waitedDelays (eventsOf run) = announcedDelays (eventsOf run)) /\
    match last with
    | None => exists v, resultOf run = Returned v
    | Some e =>
        resultOf run = Threw e /\
        (isConnectionError e = true -> S (length retried) = 3%nat)
    end.
Proof.
  apply (retry_classification answering answering answering refusing 3 500
           (mkState false tt)).
  lia.
Defined.

(** With the defaults, a server that refuses every connection is called
    three times, after waits of 500 ms and 1000 ms. *)
Example withRetry_refusing :
  let run := withRetry answering answering answering refusing
               defaultMaxRetries defaultInitialDelay (mkState false tt) in
  resultOf run = Threw (ErrorObject "Error" "connect ECONNREFUSED 127.0.0.1:5432")
  /\ operationCalls (eventsOf run) = 3%nat
  /\ waitedDelays (eventsOf run) = [500; 1000].
Proof. cbv zeta. repeat split; reflexivity. Qed.

(** A violated constraint is not retried. *)
Example withRetry_rejecting :
  eventsOf (withRetry answering answering answering rejecting
              defaultMaxRetries defaultInitialDelay (mkState false tt))
  = [QueryRaw; Operation (Some uniqueViolation)].
Proof. reflexivity. Qed.

(** ** C8: the length of the window *)

(** C8, as stated, at the request [?range=5]: the window is neither 7, 30
    nor 90 days but 5, and the [where] clause handed to the grouped
    queries spans five days. *)
Lemma range_five_days :
  let q := mkSpendQuery (Some "5") None None None in
  let now := 1704067200000 in
  let span (args : GroupByArgs) (table : list SpendRecord) :=
    [date_lte (group_where args) - date_gte (group_where args)] in
  rangeOf q = Some 5 /\
  ~ (rangeOf q = Some 7 \/ rangeOf q = Some 30 \/ rangeOf q = Some 90) /\
  GET span None q now [] =
  mkResponse 200 (SpendData [5 * JS.msPerDay] [5 * JS.msPerDay] [] []).
Proof.
  cbv zeta. split; [reflexivity|]. split; [|reflexivity].
  intros [H|[H|H]]; discriminate.
Qed.

Lemma GET_window {Group : Type}
    (groupBy : GroupByArgs -> list SpendRecord -> list Group)
    (q : SpendQuery) (now : Z) (table : list SpendRecord) (startDate : Z) :
  startDateOf now (rangeOf q) = Some startDate ->
  GET groupBy None q now table =
  let where_ :=
    mkWhere startDate now (optionalFilter (q_cloud q))
            (optionalFilter (q_team q)) (optionalFilter (q_env q)) in
  let window := mkWhere startDate now None None None in
  mkResponse 200
    (SpendData
       (groupBy (mkGroupByArgs ByDate where_ DateAsc None) table)
       (groupBy (mkGroupByArgs ByService where_ SumCostDesc (Some 5%nat)) table)
       (presentSorted (findManyDistinct window sr_team table))
       (presentSorted (findManyDistinct window sr_env table))).
Proof. unfold GET. by intros ->. Qed.

(** C8 (amended): the window length is [parseInt] of the [range]
    parameter, whatever whole number that is; the handler does not hold
    it to 7, 30 or 90 (the values the dashboard sends, which give 7, 30
    and 90 days).  It is 30 days when the parameter is absent or empty.
    The start date of every query is that many days before now. *)
Theorem lookback_window {Group : Type}
    (groupBy : GroupByArgs -> list SpendRecord -> list Group)
    (q : SpendQuery) (now : Z) (table : list SpendRecord) :
  (q_range q = None \/ q_range q = Some "" -> rangeOf q = Some 30) /\
  (forall text, q_range q = Some text -> text <> "" ->
     rangeOf q = JS.parseInt text) /\
  (q_range q = Some "7" -> rangeOf q = Some 7) /\
  (q_range q = Some "30" -> rangeOf q = Some 30) /\
  (q_range q = Some "90" -> rangeOf q = Some 90) /\
  (forall days,
     rangeOf q = Some days ->
     Z.abs (now - days * JS.msPerDay) <= 8640000000000000 ->
     exists daily topServices teams envs,
       GET groupBy None q now table =
       mkResponse 200 (SpendData daily topServices teams envs) /\
       daily =
         groupBy (mkGroupByArgs ByDate
                    (mkWhere (now - days * JS.msPerDay) now
                       (optionalFilter (q_cloud q)) (optionalFilter (q_team q))
                       (optionalFilter (q_env q)))
                    DateAsc None) table /\
       teams =
         presentSorted
           (findManyDistinct (mkWhere (now - days * JS.msPerDay) now
                                None None None) sr_team table)).
Proof.
  split; [|split; [|split; [|split; [|split]]]].
  - unfold rangeOf. by intros [->| ->].
  - unfold rangeOf. intros text -> Htext.
    by rewrite (or_truthy_l _ _ (truthy_nonempty _ Htext)).
  - unfold rangeOf. by intros ->.
  - unfold rangeOf. by intros ->.
  - unfold rangeOf. by intros ->.
  - intros days Hdays Hclip.
    assert (Hstart : startDateOf now (rangeOf q) = Some (now - days * JS.msPerDay)).
    { rewrite Hdays. unfold startDateOf, JS.timeClip.
      destruct (Z.leb_spec (Z.abs (now - days * JS.msPerDay)) 8640000000000000);
        [reflexivity|lia]. }
    rewrite (GET_window _ _ _ _ _ Hstart). cbv zeta.
    by eexists _, _, _, _.
Qed.

Lemma lookback_window_witness :
  rangeOf (mkSpendQuery None (Some "aws") None None) = Some 30 /\
  rangeOf (mkSpendQuery (Some "14") None None None) = Some 14.
Proof.
  split.
  - apply (proj1 (lookback_window (fun _ _ => @nil unit)
                      (mkSpendQuery None (Some "aws") None None) 0 [])).
    left. reflexivity.
  - apply (proj1 (proj2 (lookback_window (fun _ _ => @nil unit)
                           (mkSpendQuery (Some "14") None None None) 0 []))
             "14"); [reflexivity|discriminate].
Defined.

(** ** C5: the lists of teams and environments *)

#[local] Instance stringLe_total : Total stringLe.
Proof. intros a b. apply String.leb_total. Qed.

Lemma distinct_elem_of {A : Type} `{EqDecision A} (l : list A) (x : A) :
  x ∈ distinct l <-> x ∈ l.
Proof.
  induction l as [|y l IH]; [reflexivity|]. cbn [distinct].
  rewrite !elem_of_cons, list_elem_of_filter, IH.
  destruct (decide (x = y)) as [->|Hne]; [by split; left|].
  split; [intros [?|[_ ?]]; auto|intros [?|?]; [done|auto]].
Qed.

Lemma distinct_NoDup {A : Type} `{EqDecision A} (l : list A) :
  NoDup (distinct l).
Proof.
  induction l as [|y l IH]; [constructor|]. cbn [distinct].
  apply NoDup_cons. split.
  - rewrite list_elem_of_filter. by intros [Hne _].
  - by apply NoDup_filter.
Qed.

Lemma present_NoDup (values : list (option string)) :
  NoDup values ->
  NoDup (omap (fun v => if JS.truthy v then v else None) values).
Proof.
  induction 1 as [|v values Hnotin Hnd IH]; [constructor|].
  change (NoDup (match (if JS.truthy v then v else None) with
                 | Some text =>
                     text :: omap (fun v => if JS.truthy v then v else None) values
                 | None => omap (fun v => if JS.truthy v then v else None) values
                 end)).
  destruct (JS.truthy v) eqn:Hv; [|exact IH].
  destruct v as [text|]; [|discriminate].
  apply NoDup_cons. split; [|exact IH].
  rewrite list_elem_of_omap. intros (w & Hw & Heq).
  destruct (JS.truthy w); [|discriminate]. by subst w.
Qed.

(** What [values.filter(Boolean).sort()] returns. *)
Lemma presentSorted_spec (values : list (option string)) :
  Sorted stringLe (presentSorted values) /\
  (NoDup values -> NoDup (presentSorted values)) /\
  (forall text, text ∈ presentSorted values <->
                text <> "" /\ Some text ∈ values).
Proof.
  unfold presentSorted. split; [apply (Sorted_merge_sort stringLe)|]. split.
  - intros Hnd. rewrite merge_sort_Permutation. by apply present_NoDup.
  - intros text. rewrite merge_sort_Permutation, list_elem_of_omap. split.
    + intros (v & Hin & Hv). destruct (JS.truthy v) eqn:Htruthy; [|discriminate].
      subst v. apply truthy_Some in Htruthy as (s & [= <-] & Hne). done.
    + intros [Hne Hin]. exists (Some text). split; [exact Hin|].
      by rewrite truthy_nonempty.
Qed.

(** What the two [findMany] queries return: the values of the column over
    the lines inside the window, each once. *)
Lemma findManyDistinct_window startDate endDate
    (column : SpendRecord -> option string) (table : list SpendRecord) :
  let found :=
    findManyDistinct (mkWhere startDate endDate None None None) column table in
  NoDup found /\
  forall v, v ∈ found <->
    exists r, r ∈ table /\ inWindow startDate endDate r = true /\ column r = v.
Proof.
  unfold findManyDistinct. split; [apply distinct_NoDup|].
  intros v. rewrite distinct_elem_of, list_elem_of_fmap. split.
  - intros (r & -> & Hr). apply list_elem_of_filter in Hr as [Hsat Hin].
    exists r. split; [exact Hin|]. split; [|reflexivity].
    unfold satisfies in Hsat. cbn in Hsat. by rewrite !andb_true_r in Hsat.
  - intros (r & Hin & Hwin & <-). exists r. split; [reflexivity|].
    apply list_elem_of_filter. split; [|exact Hin].
    unfold satisfies. cbn. by rewrite !andb_true_r.
Qed.

(** C5: in every answer of the analytics handler, [availableTeams] and
    [availableEnvs] are the teams and the environments of the lines whose
    date is inside the window, without [null] and without the empty
    string, each once, in ascending order; and the same two lists are
    returned whatever [cloud], [team] and [env] filters the request
    carries. *)
Theorem filter_options_by_window_only {Group : Type}
    (groupBy : GroupByArgs -> list SpendRecord -> list Group)
    (q : SpendQuery) (now : Z) (table : list SpendRecord)
    (daily topServices : list Group) (teams envs : list string) :
  GET groupBy None q now table =
  mkResponse 200 (SpendData daily topServices teams envs) ->
  exists startDate,
    startDateOf now (rangeOf q) = Some startDate /\
    (forall cloud team env, exists daily' topServices',
       GET groupBy None (mkSpendQuery (q_range q) cloud team env) now table =
       mkResponse 200 (SpendData daily' topServices' teams envs)) /\
    Sorted stringLe teams /\ NoDup teams /\
    (forall text, text ∈ teams <->
       text <> "" /\
       exists r, r ∈ table /\ inWindow startDate now r = true /\
                 sr_team r = Some text) /\
    Sorted stringLe envs /\ NoDup envs /\
    (forall text, text ∈ envs <->
       text <> "" /\
       exists r, r ∈ table /\ inWindow startDate now r = true /\
                 sr_env r = Some text).
Proof.
  intros Hget.
  destruct (startDateOf now (rangeOf q)) as [startDate|] eqn:Hstart.
  2: { unfold GET in Hget. rewrite Hstart in Hget. discriminate. }
  rewrite (GET_window _ _ _ _ _ Hstart) in Hget. cbv zeta in Hget.
  injection Hget as _ _ Hteams Henvs.
  exists startDate. split; [reflexivity|]. split.
  { intros cloud team env.
    assert (Hrange : rangeOf (mkSpendQuery (q_range q) cloud team env) = rangeOf q)
      by reflexivity.
    rewrite (GET_window _ _ _ _ startDate) by (by rewrite Hrange).
    cbv zeta. rewrite Hteams, Henvs. by eexists _, _. }
  destruct (findManyDistinct_window startDate now sr_team table) as [Hnd1 Hin1].
  destruct (findManyDistinct_window startDate now sr_env table) as [Hnd2 Hin2].
  destruct (presentSorted_spec
              (findManyDistinct (mkWhere startDate now None None None) sr_team table))
    as (Hs1 & Hn1 & Hm1).
  destruct (presentSorted_spec
              (findManyDistinct (mkWhere startDate now None None None) sr_env table))
    as (Hs2 & Hn2 & Hm2).
  rewrite Hteams in Hs1, Hn1, Hm1. rewrite Henvs in Hs2, Hn2, Hm2.
  split; [exact Hs1|]. split; [by apply Hn1|]. split.
  { intros text. by rewrite Hm1, Hin1. }
  split; [exact Hs2|]. split; [by apply Hn2|].
  intros text. by rewrite Hm2, Hin2.
Qed.

Lemma filter_options_by_window_only_witness :
  exists daily' topServices',
    GET noGroups None (mkSpendQuery (Some "7") (Some "aws") (Some "web") None)
        sampleNow sampleTable =
    mkResponse 200 (SpendData daily' topServices' ["data"; "web"] ["prod"]).
Proof.
  destruct (filter_options_by_window_only noGroups
              (mkSpendQuery (Some "7") (Some "gcp") None (Some "prod"))
              sampleNow sampleTable [] [] ["data"; "web"] ["prod"] eq_refl)
    as (startDate & _ & Hsame & _).
  exact (Hsame (Some "aws") (Some "web") None).
Defined.

(* ===================================================================== *)
(** * Further properties of the handlers *)
(* ===================================================================== *)

(** ** The loop of the upload handler: what is collected *)

Section CollectMore.

Variable newDate : string -> JS.date.
Variable cloud : Cloud.

Local Abbreviation loop := (collectFrom newDate cloud).
Local Abbreviation build := (buildRow newDate cloud).

Lemma collectFrom_length rows : forall seen acc,
  (length (snd (loop rows seen acc)) <= length acc + length rows)%nat.
Proof.
  induction rows as [|row rest IH]; intros seen acc; cbn [collectFrom length].
  - cbn. lia.
  - destruct (missingRequired (normalize row)).
    + specialize (IH seen acc). lia.
    + destruct (decide _).
      * specialize (IH seen acc). lia.
      * specialize (IH ({[dedupeKey cloud (normalize row)]} ∪ seen)
                       (acc ++ [build (normalize row)])).
        rewrite length_app in IH. cbn [length] in IH. lia.
Qed.

(** The keys of the collected rows are in [seen], and differ. *)
Lemma collectFrom_keys_invariant rows : forall seen acc,
  NoDup (map vr_dedupe_key acc) ->
  (forall key, key ∈ map vr_dedupe_key acc -> key ∈ seen) ->
  NoDup (map vr_dedupe_key (snd (loop rows seen acc))) /\
  (forall key, key ∈ map vr_dedupe_key (snd (loop rows seen acc)) ->
               key ∈ fst (loop rows seen acc)).
Proof.
  induction rows as [|row rest IH]; intros seen acc Hnd Hsub; [done|].
  cbn [collectFrom]. destruct (missingRequired (normalize row)); [by apply IH|].
  destruct (decide _) as [Hin|Hout]; [by apply IH|].
  apply IH.
  - rewrite map_app. apply NoDup_app. split; [exact Hnd|]. split.
    + intros key Hacc Hlast. cbn in Hlast.
      apply list_elem_of_singleton in Hlast. subst key. apply Hout. by apply Hsub.
    + cbn. apply NoDup_singleton.
  - intros key. rewrite map_app, elem_of_app. intros [Hacc|Hlast].
    + apply elem_of_union_r. by apply Hsub.
    + cbn in Hlast. apply list_elem_of_singleton in Hlast. subst key.
      apply elem_of_union_l. by apply elem_of_singleton.
Qed.

(** A key enters [seen] only with the row that is collected for it. *)
Lemma collectFrom_seen_collected rows : forall seen acc key,
  key ∈ fst (loop rows seen acc) ->
  key ∈ seen \/ key ∈ map vr_dedupe_key (snd (loop rows seen acc)).
Proof.
  induction rows as [|row rest IH]; intros seen acc key Hkey; [by left|].
  cbn [collectFrom] in *. destruct (missingRequired (normalize row)); [by apply IH|].
  destruct (decide _) as [Hin|Hout]; [by apply IH|].
  destruct (IH _ _ _ Hkey) as [Hseen|Hcollected]; [|by right].
  apply elem_of_union in Hseen as [Hnew|Hold]; [|by left].
  apply elem_of_singleton in Hnew. subst key. right.
  rewrite collectFrom_acc. cbn [snd]. rewrite map_app, elem_of_app. left.
  rewrite map_app, elem_of_app. right. cbn. by left.
Qed.

(** A key enters [seen] only from an admissible row. *)
Lemma collectFrom_seen_origin rows : forall seen acc key,
  key ∈ fst (loop rows seen acc) ->
  key ∈ seen \/
  exists row, row ∈ rows /\ rowAdmissible row = true /\ rowKey cloud row = key.
Proof.
  induction rows as [|row rest IH]; intros seen acc key Hkey; [by left|].
  destruct (rowAdmissible row) eqn:Hadm.
  - destruct (decide (rowKey cloud row ∈ seen)) as [Hin|Hout].
    + rewrite collectFrom_skip_seen in Hkey by assumption.
      destruct (IH _ _ _ Hkey) as [?|(r & ? & ? & ?)]; [by left|].
      right. exists r. split; [by right|done].
    + rewrite collectFrom_keep in Hkey by assumption.
      destruct (IH _ _ _ Hkey) as [Hseen|(r & ? & ? & ?)].
      * apply elem_of_union in Hseen as [Hnew|?]; [|by left].
        apply elem_of_singleton in Hnew. right. exists row.
        split; [by left|done].
      * right. exists r. split; [by right|done].
  - rewrite collectFrom_skip_invalid in Hkey by assumption.
    destruct (IH _ _ _ Hkey) as [?|(r & ? & ? & ?)]; [by left|].
    right. exists r. split; [by right|done].
Qed.

(** After an admissible row its key is in [seen]. *)
Lemma collectFrom_admissible_seen rows : forall seen acc row,
  row ∈ rows -> rowAdmissible row = true ->
  rowKey cloud row ∈ fst (loop rows seen acc).
Proof.
  induction rows as [|r rest IH]; intros seen acc row Hin Hadm.
  - by apply elem_of_nil in Hin.
  - apply elem_of_cons in Hin as [->|Hin].
    + destruct (decide (rowKey cloud r ∈ seen)) as [Hseen|Hnew].
      * rewrite collectFrom_skip_seen by assumption.
        by apply collectFrom_seen_mono.
      * rewrite collectFrom_keep by assumption.
        apply collectFrom_seen_mono. set_solver.
    + cbn [collectFrom]. destruct (missingRequired (normalize r)); [by apply IH|].
      destruct (decide _); by apply IH.
Qed.

Lemma collect_keys_facts (rows : list Row) :
  let validRows := collect newDate cloud rows in
  NoDup (map vr_dedupe_key validRows) /\
  (forall key, key ∈ map vr_dedupe_key validRows <->
     exists row, row ∈ rows /\ rowAdmissible row = true /\
                 rowKey cloud row = key) /\
  (length validRows <= length rows)%nat.
Proof.
  intros validRows. unfold validRows, collect.
  destruct (collectFrom_keys_invariant rows ∅ []) as [Hnd Hsub];
    [constructor|intros key Hkey; by apply elem_of_nil in Hkey|].
  split; [exact Hnd|]. split; [|apply (collectFrom_length rows ∅ [])].
  intros key. split.
  - intros Hkey. apply list_elem_of_fmap in Hkey as (v & -> & Hv).
    destruct (collectFrom_origin _ _ _ _ _ _ Hv) as [Hnil|(row & Hin & Hadm & ->)].
    + by apply elem_of_nil in Hnil.
    + by exists row.
  - intros (row & Hin & Hadm & <-).
    destruct (collectFrom_seen_collected rows ∅ [] (rowKey cloud row)) as [Hempty|Hkey].
    + by apply collectFrom_admissible_seen.
    + set_solver.
    + exact Hkey.
Qed.

(** The rows handed to the bulk insert carry one key each: the keys of the
    payload are mutually distinct, they are exactly the keys of the rows of
    the file that pass the validation, and the payload is never longer
    than the file. *)
Theorem collect_keys (rows : list Row) :
  let validRows := collect newDate cloud rows in
  NoDup (map vr_dedupe_key validRows) /\
  (forall key, key ∈ map vr_dedupe_key validRows <->
     exists row, row ∈ rows /\ rowAdmissible row = true /\
                 rowKey cloud row = key) /\
  (length validRows <= length rows)%nat.
Proof. exact (collect_keys_facts rows). Qed.

Lemma collect_first_kept (rows1 : list Row) (row : Row) (rows2 : list Row) :
  rowAdmissible row = true ->
  (forall earlier, earlier ∈ rows1 -> rowAdmissible earlier = true ->
                   rowKey cloud earlier <> rowKey cloud row) ->
  build (normalize row) ∈ collect newDate cloud (rows1 ++ row :: rows2).
Proof.
  intros Hadm Hfirst. unfold collect. rewrite collectFrom_app.
  rewrite collectFrom_keep; [|exact Hadm|].
  - rewrite collectFrom_acc. cbn [snd]. rewrite !elem_of_app.
    left. right. by apply list_elem_of_singleton.
  - intros Hseen.
    destruct (collectFrom_seen_origin _ _ _ _ Hseen) as [Hempty|(r & Hin & Hr & Hkey)].
    + set_solver.
    + by apply (Hfirst r).
Qed.

(** Of the rows with one key, the first admissible one is the row that is
    collected: a row that passes the validation and whose key no earlier
    admissible row of the file has is in the payload, with its own cells. *)
Theorem collect_first_wins (rows1 : list Row) (row : Row) (rows2 : list Row) :
  rowAdmissible row = true ->
  (forall earlier, earlier ∈ rows1 -> rowAdmissible earlier = true ->
                   rowKey cloud earlier <> rowKey cloud row) ->
  build (normalize row) ∈ collect newDate cloud (rows1 ++ row :: rows2).
Proof. exact (collect_first_kept rows1 row rows2). Qed.

End CollectMore.

Lemma collect_first_wins_witness :
  buildRow JS.isoDate aws (normalize (<["team" := "undefined"]> ec2Row))
  ∈ collect JS.isoDate aws
      [invalidRow; <["team" := "undefined"]> ec2Row; ec2Row].
Proof.
  apply (collect_first_wins JS.isoDate aws [invalidRow]
           (<["team" := "undefined"]> ec2Row) [ec2Row]).
  - reflexivity.
  - intros earlier Hin Hadm. apply list_elem_of_singleton in Hin. subst earlier.
    discriminate.
Defined.

(** ** The bulk insert and the table *)

(** What the bulk insert does to the table and to its counter. *)
Lemma insertSkipping_shape data : forall table count,
  exists added,
    fst (insertSkipping data table count) = table ++ added /\
    snd (insertSkipping data table count) = count + Z.of_nat (length added) /\
    (length added <= length data)%nat.
Proof.
  induction data as [|v rest IH]; intros table count.
  - exists []. cbn. rewrite app_nil_r. repeat split; lia.
  - cbn [insertSkipping]. destruct (keyTaken (vr_dedupe_key v) table).
    + destruct (IH table count) as (added & Ht & Hc & Hl).
      exists added. cbn [length]. repeat split; [done|done|lia].
    + destruct (IH (table ++ [toRecord v]) (count + 1)) as (added & Ht & Hc & Hl).
      exists (toRecord v :: added). rewrite Ht, Hc.
      cbn [length]. split; [by rewrite <- app_assoc|]. split; lia.
Qed.

(** Every key of the statement is in the table afterwards. *)
Lemma insertSkipping_complete data : forall table count v,
  v ∈ data ->
  vr_dedupe_key v ∈ map sr_dedupe_key (fst (insertSkipping data table count)).
Proof.
  induction data as [|w rest IH]; intros table count v Hv.
  - by apply elem_of_nil in Hv.
  - assert (Hgrow : forall data table count key,
              key ∈ map sr_dedupe_key table ->
              key ∈ map sr_dedupe_key (fst (insertSkipping data table count))).
    { intros data' table' count' key Hkey.
      destruct (insertSkipping_shape data' table' count') as (added & -> & _).
      rewrite map_app, elem_of_app. by left. }
    cbn [insertSkipping]. apply elem_of_cons in Hv as [->|Hv].
    + destruct (keyTaken (vr_dedupe_key w) table) eqn:Hk.
      * apply Hgrow. by apply keyTaken_true.
      * apply Hgrow. rewrite map_app, elem_of_app. right. cbn. by left.
    + destruct (keyTaken (vr_dedupe_key w) table); by apply IH.
Qed.

(** ** One upload, from any table *)

Section UploadMore.

Variable newDate : string -> JS.date.

(** The counts of an answer: whenever an upload is answered with a
    summary, [inserted] is the number of lines the table has grown by, it
    is at most the number of rows handed to the bulk insert, and
    [inserted + skipped] is the number of rows of the file; neither count
    is negative. *)
Theorem upload_counts (file : File) (st : State Db)
    (message : string) (inserted skipped : Z) :
  let run := upload newDate file st in
  body (resultOf run) = UploadSummary message inserted skipped ->
  0 <= inserted /\ 0 <= skipped /\
  inserted + skipped = Z.of_nat (length (file_rows file)) /\
  inserted <= Z.of_nat (length (collect newDate (detectCloud (file_name file))
                                        (file_rows file))) /\
  Z.of_nat (length (records (world (stateOf run)))) =
  Z.of_nat (length (records (world st))) + inserted.
Proof.
  intros run. unfold run.
  set (cloud := detectCloud (file_name file)).
  destruct (decide (collect newDate cloud (file_rows file) = [])) as [Hnone|Hsome].
  - rewrite upload_rejected by exact Hnone. cbn [resultOf fst].
    destruct (_ =? _)%nat; discriminate.
  - destruct (forallb storable (collect newDate cloud (file_rows file)))
      eqn:Hok; [|rewrite upload_refused by assumption; discriminate].
    rewrite upload_run by assumption. fold cloud.
    cbn [resultOf stateOf fst snd body uploaded world records].
    destruct (insertSkipping_shape (collect newDate cloud (file_rows file))
                (records (world st)) 0) as (added & Ht & Hc & Hl).
    rewrite Ht, Hc. intros [= _ <- <-].
    pose proof (collectFrom_length newDate cloud (file_rows file) ∅ []) as Hlen.
    fold (collect newDate cloud (file_rows file)) in Hlen. cbn [length] in Hlen.
    rewrite length_app. repeat split; lia.
Qed.

(** An upload only appends: the table before the upload is a prefix of
    the table after it, whatever the file holds and whatever the answer. *)
Theorem upload_append_only (file : File) (st : State Db) :
  records (world st) `prefix_of`
  records (world (stateOf (upload newDate file st))).
Proof.
  set (cloud := detectCloud (file_name file)).
  destruct (decide (collect newDate cloud (file_rows file) = [])) as [Hnone|Hsome].
  - by rewrite upload_rejected by exact Hnone.
  - destruct (forallb storable (collect newDate cloud (file_rows file)))
      eqn:Hok; [|by rewrite upload_refused by assumption].
    rewrite upload_run by assumption. fold cloud.
    cbn [stateOf fst snd world records].
    destruct (insertSkipping_shape (collect newDate cloud (file_rows file))
                (records (world st)) 0) as (added & -> & _).
    by exists added.
Qed.

(** The unique index on [dedupe_key] survives every upload. *)
Theorem upload_keeps_keys_unique (file : File) (st : State Db) :
  NoDup (map sr_dedupe_key (records (world st))) ->
  NoDup (map sr_dedupe_key (records (world (stateOf (upload newDate file st))))).
Proof.
  intros Hnd. set (cloud := detectCloud (file_name file)).
  destruct (decide (collect newDate cloud (file_rows file) = [])) as [Hnone|Hsome].
  - by rewrite upload_rejected by exact Hnone.
  - destruct (forallb storable (collect newDate cloud (file_rows file)))
      eqn:Hok; [|by rewrite upload_refused by assumption].
    rewrite upload_run by assumption. fold cloud.
    cbn [stateOf fst snd world records]. by apply insertSkipping_unique.
Qed.


(** Uploading a file once more, right after it was uploaded, changes
    nothing, from any table and for any file: the table stays as the first
    upload left it, and when the first upload was answered with a summary
    the second is answered with [inserted = 0] and all rows skipped
    (otherwise with the same error). *)
Theorem reupload_any_file (file : File) (st : State Db) :
  let first := upload newDate file st in
  let second := upload newDate file (stateOf first) in
  records (world (stateOf second)) = records (world (stateOf first)) /\
  ((exists message inserted skipped,
      body (resultOf first) = UploadSummary message inserted skipped) ->
   resultOf second =
   uploaded (detectCloud (file_name file)) 0
            (Z.of_nat (length (file_rows file)))) /\
  (status (resultOf first) = 400 -> resultOf second = resultOf first).
Proof.
  cbv zeta. set (cloud := detectCloud (file_name file)).
  destruct (decide (collect newDate cloud (file_rows file) = [])) as [Hnone|Hsome].
  - rewrite !upload_rejected by exact Hnone. cbn [stateOf resultOf fst snd].
    split; [reflexivity|]. split; [|reflexivity].
    intros (m & i & s & Hbody). destruct (_ =? _)%nat; discriminate.
  - destruct (forallb storable (collect newDate cloud (file_rows file)))
      eqn:Hok.
    2:{ rewrite (upload_refused newDate file st) by assumption. fold cloud.
        cbn [stateOf resultOf fst snd].
        rewrite upload_refused by assumption.
        cbn [stateOf resultOf fst snd world records].
        split; [reflexivity|]. split; [|discriminate].
        intros (m & i & s & Hbody). discriminate. }
    rewrite (upload_run newDate file st) by assumption. fold cloud.
    cbn [stateOf resultOf fst snd].
    rewrite upload_run by assumption. fold cloud.
    cbn [stateOf resultOf fst snd world records].
    rewrite (insertSkipping_taken (collect newDate cloud (file_rows file))
               (fst (insertSkipping _ (records (world st)) 0))).
    + cbn [fst snd]. split; [reflexivity|]. split; [|discriminate].
      intros _. by rewrite Z.sub_0_r.
    + intros v Hv. apply keyTaken_true. by apply insertSkipping_complete.
Qed.

Lemma collected_filled (cloud : Cloud) (rows : list Row) (v : ValidRow) :
  v ∈ collect newDate cloud rows ->
  vr_service v <> "" /\ vr_account_or_project v <> "" /\
  vr_team v <> "" /\ vr_env v <> "" /\
  exists row, row ∈ rows /\
    Some (vr_service v) = n_service (normalize row) /\
    vr_account_or_project v =
      (if JS.truthy (n_account_or_project (normalize row))
       then JS.template (n_account_or_project (normalize row)) else "unknown") /\
    vr_team v =
      (if JS.truthy (n_team (normalize row))
       then JS.template (n_team (normalize row)) else "unassigned") /\
    vr_env v =
      (if JS.truthy (n_env (normalize row))
       then JS.template (n_env (normalize row)) else "prod").
Proof.
  intros Hv. apply collect_origin in Hv as (row & Hin & Hadm & ->).
  unfold rowAdmissible, missingRequired in Hadm.
  destruct (JS.truthy (n_service (normalize row))) eqn:Hservice;
    [|by rewrite orb_true_r in Hadm].
  apply truthy_Some in Hservice as (service & Hservice & Hne).
  assert (Hfill : forall (cell : JS.value) (fallback : string),
            fallback <> "" ->
            JS.narrowed (JS.or cell (Some fallback)) <> "" /\
            JS.narrowed (JS.or cell (Some fallback)) =
            (if JS.truthy cell then JS.template cell else fallback)).
  { intros cell fallback Hfb. unfold JS.or.
    destruct (JS.truthy cell) eqn:Hcell; [|done].
    apply truthy_Some in Hcell as (text & -> & Htext). done. }
  cbn [buildRow vr_service vr_account_or_project vr_team vr_env].
  rewrite Hservice. cbn [JS.narrowed default].
  split; [exact Hne|].
  split; [by apply Hfill|]. split; [by apply Hfill|]. split; [by apply Hfill|].
  exists row. split; [exact Hin|]. rewrite Hservice.
  split; [reflexivity|].
  split; [by apply Hfill|]. split; by apply Hfill.
Qed.

(** The defaults: every row handed to the bulk insert has a service, an
    account or project, a team and an environment that are not empty; an
    optional cell that is not empty is kept as it is, and one that is
    empty or absent becomes "unknown", "unassigned" or "prod". *)
Theorem collected_rows_are_filled (cloud : Cloud) (rows : list Row) (v : ValidRow) :
  v ∈ collect newDate cloud rows ->
  vr_service v <> "" /\ vr_account_or_project v <> "" /\
  vr_team v <> "" /\ vr_env v <> "" /\
  exists row, row ∈ rows /\
    Some (vr_service v) = n_service (normalize row) /\
    vr_account_or_project v =
      (if JS.truthy (n_account_or_project (normalize row))
       then JS.template (n_account_or_project (normalize row)) else "unknown") /\
    vr_team v =
      (if JS.truthy (n_team (normalize row))
       then JS.template (n_team (normalize row)) else "unassigned") /\
    vr_env v =
      (if JS.truthy (n_env (normalize row))
       then JS.template (n_env (normalize row)) else "prod").
Proof. exact (collected_filled cloud rows v). Qed.

End UploadMore.

Lemma upload_counts_witness :
  Z.of_nat (length (records (world (stateOf
     (upload JS.isoDate (mkFile "test.csv" [ec2Row; invalidRow; ec2Row])
        freshState)))))
  = Z.of_nat (length (records (world freshState))) + 1.
Proof.
  apply (upload_counts JS.isoDate (mkFile "test.csv" [ec2Row; invalidRow; ec2Row])
           freshState "Uploaded successfully (AWS detected)" 1 2 eq_refl).
Defined.

Lemma upload_keeps_keys_unique_witness :
  NoDup (map sr_dedupe_key
           (records (world (stateOf (upload JS.isoDate testFile freshState))))).
Proof.
  apply (upload_keeps_keys_unique JS.isoDate testFile freshState).
  constructor.
Defined.


Lemma reupload_any_file_witness :
  resultOf (upload JS.isoDate (mkFile "test.csv" [ec2Row; invalidRow; ec2Row])
              (stateOf (upload JS.isoDate
                          (mkFile "test.csv" [ec2Row; invalidRow; ec2Row])
                          freshState)))
  = uploaded aws 0 3.
Proof.
  apply (reupload_any_file JS.isoDate
           (mkFile "test.csv" [ec2Row; invalidRow; ec2Row]) freshState).
  by eexists _, _, _.
Defined.

Lemma collected_rows_are_filled_witness :
  vr_team (buildRow JS.isoDate aws (normalize ec2Row)) <> "".
Proof.
  apply (collected_rows_are_filled JS.isoDate aws [ec2Row]
           (buildRow JS.isoDate aws (normalize ec2Row))).
  change (collect JS.isoDate aws [ec2Row])
    with [buildRow JS.isoDate aws (normalize ec2Row)].
  constructor.
Defined.

(** ** The retry wrapper: recovery and the connection flag *)





Section RetryMore.

Context {W T : Type}.
Variables queryRaw disconnect connect : W -> Outcome unit * W.
Variable operation : W -> Outcome T * W.
Variables (maxRetries : nat) (initialDelay : Z).

Local Abbreviation loopFrom :=
  (attempts queryRaw disconnect connect operation maxRetries initialDelay).

Lemma ensureConnection_total (st : State W) :
  exists st1 evs, ensureConnection queryRaw st = (tt, st1, evs).
Proof.
  destruct (ensureConnection_quiet queryRaw st) as (st1 & evs & H & _).
  by exists st1, evs.
Qed.

Lemma attempts_throws_disconnected (left : nat) : forall attempt lastError st e,
  (1 <= left)%nat ->
  (attempt + left = maxRetries + 1)%nat ->
  resultOf (loopFrom left attempt lastError st) = Threw e ->
  isConnectionError e = true ->
  isConnected (stateOf (loopFrom left attempt lastError st)) = false.
Proof.
  induction left as [|left' IH]; intros attempt lastError st e Hleft Hsum; [lia|].
  destruct (ensureConnection_total st) as (st1 & evs1 & Hensure).
  destruct (operation (world st1)) as [r w] eqn:Hop.
  rewrite (attempts_step _ _ _ _ _ _ left' attempt lastError st st1 evs1 r w
             Hensure Hop).
  destruct r as [v|e']; [discriminate|].
  destruct (isConnectionError e') eqn:Hconn.
  - destruct (attempt <? maxRetries)%nat eqn:Hlt.
    + apply Nat.ltb_lt in Hlt. cbv zeta.
      destruct (reconnect _ _ _ _) as [[[] st2] evs2].
      specialize (IH (S attempt) e' st2 e ltac:(lia) ltac:(lia)).
      destruct (loopFrom left' (S attempt) e' st2) as [[res st3] evs3].
      exact IH.
    + done.
  - cbn. intros [= ->]. congruence.
Qed.

(** When the wrapper gives up on a connection error, it leaves the flag
    [isConnected] down, so that the next call starts with the health
    check. *)
Theorem withRetry_gives_up_disconnected (st : State W) (e : Thrown) :
  (1 <= maxRetries)%nat ->
  let run :=
    withRetry queryRaw disconnect connect operation maxRetries initialDelay st in
  resultOf run = Threw e ->
  isConnectionError e = true ->
  isConnected (stateOf run) = false /\
  exists after,
    eventsOf (ensureConnection queryRaw (stateOf run)) = QueryRaw :: after.
Proof.
  intros Hmax run Hres Hconn.
  assert (Hdown : isConnected (stateOf run) = false).
  { by apply (attempts_throws_disconnected maxRetries 1%nat Undefined st e);
      [exact Hmax|lia|..]. }
  split; [exact Hdown|].
  clearbody run. destruct (stateOf run) as [flag w0]. cbn in Hdown. subst flag.
  cbv [ensureConnection bind getConnected checkConnection call setConnected
       emit ret]. cbn.
  destruct (queryRaw w0) as [[[]|e'] w]; cbn; by eexists.
Qed.

End RetryMore.

Lemma withRetry_gives_up_disconnected_witness :
  isConnected (stateOf (withRetry answering answering answering refusing 3 500
                          (mkState true tt))) = false.
Proof.
  apply (withRetry_gives_up_disconnected answering answering answering refusing
           3 500 (mkState true tt)
           (ErrorObject "Error" "connect ECONNREFUSED 127.0.0.1:5432"));
    [lia|reflexivity|reflexivity].
Defined.

(** Failures that pass are not seen by the caller. *)
Section Recovery.

Context {T : Type}.
Variables (failures maxRetries : nat) (initialDelay : Z) (e : Thrown) (v : T).
Hypothesis e_connection : isConnectionError e = true.

Local Abbreviation flakyLoop :=
  (attempts (W := nat) steady steady steady (flaky failures e v)
            maxRetries initialDelay).

Lemma flaky_attempts (remaining : nat) : forall left attempt calls connected lastError,
  (calls + remaining = failures)%nat ->
  (remaining < left)%nat ->
  (attempt + left = maxRetries + 1)%nat ->
  let run := flakyLoop left attempt lastError (mkState connected calls) in
  resultOf run = Returned v /\
  world (stateOf run) = S failures /\
  operationCalls (eventsOf run) = S remaining /\
  waitedDelays (eventsOf run) =
    map (fun i => initialDelay * 2 ^ (Z.of_nat (attempt + i) - 1))
        (seq 0 remaining).
Proof.
  induction remaining as [|remaining IH];
    intros left attempt calls connected lastError Hcalls Hleft Hsum run;
    (destruct left as [|left']; [lia|]).
  - (* no failure left: the call returns *)
    subst run.
    destruct (ensureConnection_quiet (W := nat) steady (mkState connected calls))
      as (st1 & evs1 & Hensure & Ho1 & _ & Hw1).
    assert (Hworld : world st1 = calls).
    { destruct connected; cbn in Hensure; by injection Hensure as <- _. }
    erewrite attempts_step; [|exact Hensure|].
    2: { rewrite Hworld. unfold flaky.
         destruct (Nat.ltb_spec calls failures); [lia|reflexivity]. }
    cbn [resultOf stateOf eventsOf fst snd world].
    rewrite operationCalls_outcomes, operationOutcomes_app, waitedDelays_app,
      Ho1, Hw1. cbn. repeat split; try done. f_equal. lia.
  - (* one more failure: retry *)
    subst run.
    destruct (ensureConnection_quiet (W := nat) steady (mkState connected calls))
      as (st1 & evs1 & Hensure & Ho1 & _ & Hw1).
    assert (Hworld : world st1 = calls).
    { destruct connected; cbn in Hensure; by injection Hensure as <- _. }
    erewrite attempts_step; [|exact Hensure|].
    2: { rewrite Hworld. unfold flaky.
         destruct (Nat.ltb_spec calls failures); [reflexivity|lia]. }
    cbv beta iota. rewrite e_connection.
    assert (Hlt : (attempt <? maxRetries)%nat = true) by (apply Nat.ltb_lt; lia).
    rewrite Hlt. cbv zeta.
    set (delay := initialDelay * 2 ^ (Z.of_nat attempt - 1)).
    change (reconnect steady steady delay (mkState false (S calls)))
      with (tt, mkState true (S calls), [Disconnect; SetTimeout delay; Connect]).
    cbv iota beta.
    specialize (IH left' (S attempt) (S calls) true e ltac:(lia) ltac:(lia) ltac:(lia)).
    cbv zeta in IH.
    destruct (flakyLoop left' (S attempt) e (mkState true (S calls)))
      as [[res st3] evs3].
    cbn [resultOf stateOf eventsOf fst snd] in *.
    destruct IH as (Hres & Hw & Hcount & Hwaited).
    split; [exact Hres|]. split; [exact Hw|].
    rewrite !operationCalls_outcomes in *.
    rewrite !operationOutcomes_app, !waitedDelays_app, Ho1, Hw1.
    cbn [operationOutcomes waitedDelays app length].
    rewrite Hcount, Hwaited. split; [reflexivity|].
    cbn [seq map]. f_equal.
    + unfold delay. do 3 f_equal. lia.
    + rewrite <- seq_shift, map_map. apply map_ext. intros i. do 3 f_equal. lia.
Qed.

End Recovery.

(** Failures that pass are not seen by the caller: when the server fails
    the first [failures] calls with a connection error and [failures] is
    less than [maxRetries], the wrapper returns the value of the call that
    succeeds, after [failures + 1] calls and waits of [initialDelay],
    [2 * initialDelay], ... between them. *)
Theorem withRetry_recovers {T : Type} (failures maxRetries : nat)
    (initialDelay : Z) (e : Thrown) (v : T) (connected : bool) :
  isConnectionError e = true ->
  (failures < maxRetries)%nat ->
  let run :=
    withRetry (W := nat) steady steady steady (flaky failures e v)
              maxRetries initialDelay (mkState connected 0%nat) in
  resultOf run = Returned v /\
  operationCalls (eventsOf run) = S failures /\
  waitedDelays (eventsOf run) = backoff initialDelay failures.
Proof.
  intros Hconn Hlt run.
  destruct (flaky_attempts failures maxRetries initialDelay e v Hconn failures
              maxRetries 1%nat 0%nat connected Undefined
              ltac:(lia) Hlt ltac:(lia)) as (Hres & _ & Hcalls & Hwaited).
  split; [exact Hres|]. split; [exact Hcalls|].
  unfold run, withRetry. rewrite Hwaited. unfold backoff.
  apply map_ext. intros i. do 2 f_equal. lia.
Qed.

Lemma withRetry_recovers_witness :
  resultOf (withRetry (W := nat) steady steady steady
              (flaky 2 (ErrorObject "Error" "Connection Closed") 7)
              3 500 (mkState false 0%nat))
  = Returned 7.
Proof.
  apply (withRetry_recovers 2 3 500 (ErrorObject "Error" "Connection Closed") 7
           false); [reflexivity|lia].
Defined.

(** ** The guards: sessions and roles *)

(** Over calls that succeed, the wrapper is one health check at most and
    the call itself. *)
Lemma withRetry_steady_returns {W T : Type}
    (operation : W -> Outcome T * W) (left : nat) (delay : Z)
    (st : State W) (v : T) (w' : W) :
  operation (world st) = (Returned v, w') ->
  withRetry steady steady steady operation (S left) delay st =
  (Returned v, mkState true w',
   (if isConnected st then [] else [QueryRaw]) ++ [Operation None]).
Proof.
  intros Hop.
  assert (Hensure : ensureConnection steady st =
            (tt, mkState true (world st), if isConnected st then [] else [QueryRaw])).
  { by destruct st as [[] w]. }
  unfold withRetry.
  by rewrite (attempts_step _ _ _ _ _ _ left 1%nat Undefined st _ _ _ _ Hensure Hop).
Qed.

(** An operation that throws an error that is not classified as a
    connection error is called once. *)
Lemma withRetry_steady_throws {W T : Type}
    (operation : W -> Outcome T * W) (left : nat) (delay : Z)
    (st : State W) (e : Thrown) (w' : W) :
  operation (world st) = (Threw e, w') ->
  isConnectionError e = false ->
  withRetry steady steady steady operation (S left) delay st =
  (Threw e, mkState true w',
   (if isConnected st then [] else [QueryRaw]) ++ [Operation (Some e)]).
Proof.
  intros Hop Hclass.
  assert (Hensure : ensureConnection steady st =
            (tt, mkState true (world st), if isConnected st then [] else [QueryRaw])).
  { by destruct st as [[] w]. }
  unfold withRetry.
  rewrite (attempts_step _ _ _ _ _ _ left 1%nat Undefined st _ _ _ _ Hensure Hop).
  by rewrite Hclass.
Qed.

Section Guards.

Context {W : Type}.
Variables queryRaw disconnect connect : W -> Outcome unit * W.
Variable findUserById : string -> W -> Outcome (option SessionUser) * W.

Local Abbreviation lookup id :=
  (withRetry queryRaw disconnect connect (findUserById id)
             defaultMaxRetries defaultInitialDelay).
Local Abbreviation guardRoles :=
  (requireRoles queryRaw disconnect connect findUserById).
Local Abbreviation guardAuth :=
  (requireAuth queryRaw disconnect connect findUserById).

(** The two guards by the cookie and by what the lookup gives. *)
Lemma requireAuth_run (cookie : JS.value) (st : State W) :
  guardAuth cookie st =
  if JS.truthy cookie then
    let found := lookup (JS.narrowed cookie) st in
    (match resultOf found with
     | Returned (Some u) => mkAuthResult None (Some u)
     | _ => mkAuthResult (Some unauthorized) None
     end, stateOf found, eventsOf found)
  else (mkAuthResult (Some unauthorized) None, st, []).
Proof.
  unfold requireAuth, getSession, bind at 1.
  destruct (JS.truthy cookie); cbn [negb]; [|reflexivity].
  unfold bind at 1. cbv zeta.
  destruct (lookup (JS.narrowed cookie) st) as [[[[u|]|e] st'] evs];
    cbn; by rewrite ?app_nil_r.
Qed.

Lemma requireRoles_run (allowedRoles : list Role) (cookie : JS.value)
    (st : State W) :
  guardRoles allowedRoles cookie st =
  if JS.truthy cookie then
    let found := lookup (JS.narrowed cookie) st in
    (match resultOf found with
     | Returned (Some u) =>
         if bool_decide (su_role u ∈ allowedRoles)
         then mkAuthResult None (Some u)
         else mkAuthResult (Some forbidden) None
     | _ => mkAuthResult (Some unauthorized) None
     end, stateOf found, eventsOf found)
  else (mkAuthResult (Some unauthorized) None, st, []).
Proof.
  unfold requireRoles, bind at 1. rewrite requireAuth_run.
  destruct (JS.truthy cookie); [|reflexivity]. cbv zeta.
  destruct (lookup (JS.narrowed cookie) st) as [[[[u|]|e] st'] evs];
    cbn [resultOf stateOf eventsOf fst snd auth_error auth_session requireRole];
    try (cbn; by rewrite app_nil_r).
  destruct (bool_decide (su_role u ∈ allowedRoles)); cbn; by rewrite app_nil_r.
Qed.

(** The guard lets a request through only when its cookie is not empty,
    the lookup of that id returned a user and the role of the user is one
    of the allowed roles; it then hands that user on.  In every other case
    it answers 401 or 403 and hands on no session: 401 without a cookie
    (the database is then not asked at all), 401 when no user is found and
    also when the lookup fails, 403 when the role is not allowed. *)
Theorem requireRoles_sound (allowedRoles : list Role) (cookie : JS.value)
    (st : State W) :
  let run := guardRoles allowedRoles cookie st in
  let found := lookup (JS.narrowed cookie) st in
  (forall u, auth_session (resultOf run) = Some u ->
     auth_error (resultOf run) = None /\
     JS.truthy cookie = true /\
     resultOf found = Returned (Some u) /\
     su_role u ∈ allowedRoles) /\
  (auth_session (resultOf run) = None ->
     auth_error (resultOf run) = Some unauthorized \/
     auth_error (resultOf run) = Some forbidden) /\
  (auth_error (resultOf run) = Some forbidden <->
     JS.truthy cookie = true /\
     exists u, resultOf found = Returned (Some u) /\ su_role u ∉ allowedRoles) /\
  (JS.truthy cookie = false -> stateOf run = st /\ eventsOf run = []) /\
  (forall e, JS.truthy cookie = true -> resultOf found = Threw e ->
     auth_error (resultOf run) = Some unauthorized).
Proof.
  cbv zeta. rewrite requireRoles_run.
  destruct (JS.truthy cookie) eqn:Hcookie; cbv zeta.
  2: { cbn. repeat split; try done; try (by left).
       - by intros [? _]. }
  destruct (lookup (JS.narrowed cookie) st) as [[[[u|]|e] st'] evs];
    cbn [resultOf stateOf eventsOf fst snd].
  - destruct (bool_decide_reflect (su_role u ∈ allowedRoles)) as [Hrole|Hrole];
      cbn [auth_error auth_session].
    + split; [intros ? [= <-]; done|]. split; [done|].
      split; [|split; [done|intros ? _ [=]]].
      split; [done|]. intros [_ (u' & [= <-] & Hno)]. contradiction.
    + split; [done|]. split; [by right|].
      split; [|split; [done|intros ? _ [=]]].
      split; [|done]. intros _. split; [done|]. by exists u.
  - cbn. split; [done|]. split; [by left|].
    split; [|split; [done|done]].
    split; [done|]. by intros [_ (u' & [=] & _)].
  - cbn. split; [done|]. split; [by left|].
    split; [|split; [done|done]].
    split; [done|]. by intros [_ (u' & [=] & _)].
Qed.

(** Who passes [requireRoles] passes [requireAuth], and passes
    [requireRoles] for every longer list of roles, with the same
    session. *)
Theorem requireRoles_monotone (allowedRoles more : list Role)
    (cookie : JS.value) (st : State W) (u : SessionUser) :
  auth_session (resultOf (guardRoles allowedRoles cookie st)) = Some u ->
  allowedRoles ⊆ more ->
  resultOf (guardRoles more cookie st) = mkAuthResult None (Some u) /\
  resultOf (guardAuth cookie st) = mkAuthResult None (Some u).
Proof.
  rewrite !requireRoles_run, requireAuth_run.
  destruct (JS.truthy cookie); [|discriminate]. cbv zeta.
  destruct (lookup (JS.narrowed cookie) st) as [[[[u'|]|e] st'] evs];
    cbn [resultOf stateOf eventsOf fst snd]; try discriminate.
  destruct (bool_decide_reflect (su_role u' ∈ allowedRoles)) as [Hrole|Hrole];
    [|discriminate].
  intros [= <-] Hsub. split; [|reflexivity].
  by rewrite bool_decide_eq_true_2 by (by apply Hsub).
Qed.

End Guards.

Lemma requireRoles_sound_witness :
  auth_error (resultOf (requireRoles steady steady steady findSessionUser
                          [ADMIN; ANALYST] (Some "u-viewer") seedPortal))
  = Some forbidden.
Proof.
  apply (requireRoles_sound steady steady steady findSessionUser
           [ADMIN; ANALYST] (Some "u-viewer") seedPortal).
  split; [reflexivity|]. eexists. split; [reflexivity|]. compute_done.
Defined.

Lemma requireRoles_monotone_witness :
  resultOf (requireAuth steady steady steady findSessionUser
              (Some "u-analyst") seedPortal)
  = mkAuthResult None (Some (mkSessionUser "u-analyst" "analyst@kco.dev"
                                           ANALYST (Some "Analyst"))).
Proof.
  apply (requireRoles_monotone steady steady steady findSessionUser
           [ANALYST] [ADMIN; ANALYST] (Some "u-analyst") seedPortal
           (mkSessionUser "u-analyst" "analyst@kco.dev" ANALYST (Some "Analyst"))).
  - reflexivity.
  - compute_done.
Defined.

(** ** The routes behind their guards *)

(** The lookup of a session in the portal. *)
Lemma lookup_portal (id : string) (st : State Portal) :
  withRetry steady steady steady (findSessionUser id)
            defaultMaxRetries defaultInitialDelay st =
  (Returned (toSession <$> userById id (users (world st))),
   mkState true (world st),
   (if isConnected st then [] else [QueryRaw]) ++ [Operation None]).
Proof. by apply withRetry_steady_returns. Qed.

(** The upload handler over the portal is the upload handler over its
    spend table. *)
Lemma POST_portal newDate (file : File) (flag : bool) (p : Portal) :
  let run :=
    POST newDate steady steady steady createManySpend None (Some file)
         (mkState flag p) in
  let inner := upload newDate file (mkState flag (spend p)) in
  resultOf run = resultOf inner /\
  world (stateOf run) = mkPortal (users p) (world (stateOf inner)).
Proof.
  cbv zeta. unfold upload, POST.
  destruct (length (file_rows file) =? 0)%nat; [by destruct p|].
  set (validRows := collect newDate (detectCloud (file_name file)) (file_rows file)).
  destruct (length validRows =? 0)%nat; [by destruct p|].
  destruct (createMany validRows true (spend p)) as [r db] eqn:Hcreate.
  assert (Hreturns : (exists count, r = Returned count) \/
                     (r = Threw refusedPayload)).
  { unfold createMany in Hcreate.
    destruct (forallb storable validRows);
      [|right; by injection Hcreate as <- _].
    destruct (insertSkipping validRows (records (spend p)) 0) as [table count].
    cbn in Hcreate. injection Hcreate as <- _. left. by exists count. }
  destruct Hreturns as [[count ->]| ->].
  2:{ assert (Houter :
        withRetry steady steady steady (createManySpend validRows true)
          defaultMaxRetries defaultInitialDelay (mkState flag p) =
        (Threw refusedPayload, mkState true (mkPortal (users p) db),
         (if flag then [] else [QueryRaw]) ++ [Operation (Some refusedPayload)])).
      { apply withRetry_steady_throws; [|reflexivity]. cbn.
        unfold createManySpend. by rewrite Hcreate. }
      assert (Hinner :
        withRetry reachable reachable reachable (createMany validRows true)
          defaultMaxRetries defaultInitialDelay (mkState flag (spend p)) =
        (Threw refusedPayload, mkState true db,
         (if flag then [] else [QueryRaw]) ++ [Operation (Some refusedPayload)])).
      { by apply withRetry_reachable_throws. }
      unfold bind. by rewrite Houter, Hinner. }
  assert (Houter :
    withRetry steady steady steady (createManySpend validRows true)
      defaultMaxRetries defaultInitialDelay (mkState flag p) =
    (Returned count, mkState true (mkPortal (users p) db),
     (if flag then [] else [QueryRaw]) ++ [Operation None])).
  { apply withRetry_steady_returns. cbn. unfold createManySpend.
    by rewrite Hcreate. }
  assert (Hinner :
    withRetry reachable reachable reachable (createMany validRows true)
      defaultMaxRetries defaultInitialDelay (mkState flag (spend p)) =
    (Returned count, mkState true db,
     (if flag then [] else [QueryRaw]) ++ [Operation None])).
  { by apply withRetry_reachable_returns. }
  unfold bind. by rewrite Houter, Hinner.
Qed.

(** Only an administrator or an analyst uploads.  Whatever the file: with
    no cookie, an empty one, or one that is no user's id the answer is
    401, for a viewer it is 403, and in both cases the portal is left as it
    was, the bulk insert is not called; for an administrator or an analyst
    the answer and the spend table are those of the upload handler, and
    the users are untouched. *)
Theorem upload_route_guard newDate (cookie : JS.value) (file : File)
    (st : State Portal) :
  let run := uploadRoute newDate cookie (Some file) st in
  let inner := upload newDate file (mkState true (spend (world st))) in
  match sessionOf cookie (world st) with
  | None =>
      resultOf run = asUploadError unauthorized /\ world (stateOf run) = world st
  | Some u =>
      if decide (user_role u = VIEWER) then
        resultOf run = asUploadError forbidden /\ world (stateOf run) = world st
      else
        resultOf run = resultOf inner /\
        world (stateOf run) = mkPortal (users (world st)) (world (stateOf inner))
  end.
Proof.
  cbv zeta. unfold uploadRoute, bind, sessionOf.
  rewrite requireRoles_run.
  destruct (JS.truthy cookie); [|by cbn]. cbv zeta. rewrite lookup_portal.
  cbn [resultOf stateOf eventsOf fst snd].
  destruct (userById (JS.narrowed cookie) (users (world st))) as [u|]; [|by cbn].
  cbn [fmap option_fmap option_map toSession su_role].
  destruct (decide (user_role u = VIEWER)) as [Hviewer|Hother].
  - rewrite Hviewer. by cbn.
  - rewrite bool_decide_eq_true_2 by (destruct (user_role u); [set_solver..|done]).
    cbn [auth_error fmap option_fmap option_map].
    destruct (POST_portal newDate file true (world st)) as [Hres Hworld].
    cbv zeta in Hres, Hworld.
    destruct (POST _ _ _ _ _ _ _ _) as [[res st'] evs].
    by cbn in *.
Qed.

(** Every user reads: the analytics route answers 401 without a session
    and otherwise what the analytics handler answers, whatever the role;
    it never changes the portal. *)
Theorem spend_route_guard {Group : Type}
    (groupBy : GroupByArgs -> list SpendRecord -> list Group)
    (cookie : JS.value) (q : SpendQuery) (now : Z) (st : State Portal) :
  let run := spendRoute groupBy cookie q now st in
  world (stateOf run) = world st /\
  resultOf run =
  match sessionOf cookie (world st) with
  | None => asSpendError unauthorized
  | Some _ => GET groupBy None q now (records (spend (world st)))
  end.
Proof.
  cbv zeta. unfold spendRoute, bind, sessionOf.
  rewrite requireAuth_run.
  destruct (JS.truthy cookie); [|by cbn]. cbv zeta. rewrite lookup_portal.
  cbn [resultOf stateOf eventsOf fst snd].
  by destruct (userById (JS.narrowed cookie) (users (world st))) as [u|]; cbn.
Qed.

(** ** Logging in, then asking for the session *)

Lemma find_elem {A : Type} (P : A -> bool) (l : list A) (x : A) :
  find P l = Some x -> x ∈ l /\ P x = true.
Proof.
  induction l as [|y l IH]; [discriminate|]. cbn.
  destruct (P y) eqn:Hy.
  - intros [= ->]. split; [by left|done].
  - intros H. destruct (IH H). split; [by right|done].
Qed.

(** With a primary key, the id finds the user. *)
Lemma userById_unique (table : list User) (u : User) :
  NoDup (map user_id table) -> u ∈ table -> userById (user_id u) table = Some u.
Proof.
  unfold userById. induction table as [|v table IH]; intros Hnd Hin.
  - by apply elem_of_nil in Hin.
  - cbn in Hnd. apply NoDup_cons in Hnd as [Hnotin Hnd]. cbn [find].
    apply elem_of_cons in Hin as [->|Hin].
    + by rewrite bool_decide_eq_true_2.
    + rewrite bool_decide_eq_false_2; [by apply IH|].
      intros Heq. apply Hnotin. rewrite Heq. apply list_elem_of_fmap. by exists u.
Qed.

(** The login route in front of the portal, by cases. *)
Lemma loginPortal_run (compare : string -> string -> bool)
    (email password : JS.value) (st : State Portal) :
  loginPortal compare email password st =
  if negb (JS.truthy email) || negb (JS.truthy password) then
    ((mkResponse 400 (LoginError "Email and password required"), None), st, [])
  else
    let evs := (if isConnected st then [] else [QueryRaw]) ++ [Operation None] in
    let st' := mkState true (world st) in
    match userByEmail (JS.narrowed email) (users (world st)) with
    | Some u =>
        if compare (JS.narrowed password) (user_password u) then
          ((mkResponse 200
              (LoginUser (user_email u) (user_role u) (user_name u)),
            Some (user_id u)), st', evs)
        else ((mkResponse 401 (LoginError "Invalid credentials"), None), st', evs)
    | None => ((mkResponse 401 (LoginError "Invalid credentials"), None), st', evs)
    end.
Proof.
  unfold loginPortal, loginRoute.
  destruct (negb (JS.truthy email) || negb (JS.truthy password)); [reflexivity|].
  assert (Hlookup :
    withRetry steady steady steady (findUser (JS.narrowed email))
      defaultMaxRetries defaultInitialDelay st =
    (Returned (userByEmail (JS.narrowed email) (users (world st))),
     mkState true (world st),
     (if isConnected st then [] else [QueryRaw]) ++ [Operation None])).
  { by apply withRetry_steady_returns. }
  unfold login, bind. rewrite Hlookup. cbv zeta.
  destruct (userByEmail (JS.narrowed email) (users (world st))) as [u|];
    [|cbn; by rewrite !app_nil_r].
  destruct (compare (JS.narrowed password) (user_password u));
    cbn; by rewrite !app_nil_r.
Qed.

(** The cookie that a login sets is the cookie of that user's session:
    when the ids of the users are distinct and not empty, and the login
    route sets a session cookie, then the answer is 200 with the email,
    role and name of a user of the table who has the email that was sent
    and whose hash the password matches, and [getSession] under that
    cookie gives that user. *)
Theorem login_then_session (compare : string -> string -> bool)
    (email password : JS.value) (st : State Portal)
    (answer : Response LoginBody) (cookie : string) :
  NoDup (map user_id (users (world st))) ->
  (forall u, u ∈ users (world st) -> user_id u <> "") ->
  let run := loginPortal compare email password st in
  resultOf run = (answer, Some cookie) ->
  exists u,
    u ∈ users (world st) /\
    Some (user_email u) = email /\
    compare (JS.narrowed password) (user_password u) = true /\
    cookie = user_id u /\
    answer = mkResponse 200 (LoginUser (user_email u) (user_role u) (user_name u)) /\
    world (stateOf run) = world st /\
    resultOf (getSession steady steady steady findSessionUser (Some cookie)
                (stateOf run)) = Some (toSession u).
Proof.
  intros Hids Hnonempty. cbv zeta. rewrite loginPortal_run.
  destruct (JS.truthy email) eqn:Hemail; [|discriminate].
  destruct (JS.truthy password) eqn:Hpassword; [|discriminate].
  cbn [negb orb]. cbv zeta.
  destruct (userByEmail (JS.narrowed email) (users (world st))) as [u|] eqn:Hfind;
    [|discriminate].
  destruct (compare (JS.narrowed password) (user_password u)) eqn:Hvalid;
    [|discriminate].
  cbn [resultOf stateOf fst snd]. intros [= <- <-].
  apply find_elem in Hfind as [Hin Hmail].
  apply bool_decide_eq_true_1 in Hmail.
  apply truthy_Some in Hemail as (text & -> & _). cbn in Hmail.
  exists u. split; [exact Hin|]. split; [by rewrite Hmail|].
  split; [exact Hvalid|]. split; [reflexivity|]. split; [reflexivity|].
  split; [reflexivity|].
  unfold getSession.
  rewrite (truthy_nonempty _ (Hnonempty u Hin)). cbn [negb JS.narrowed default].
  unfold bind. rewrite lookup_portal. cbn.
  by rewrite (userById_unique _ _ Hids Hin).
Qed.

Lemma upload_route_guard_witness :
  resultOf (uploadRoute JS.isoDate (Some "u-viewer") (Some testFile) seedPortal)
  = asUploadError forbidden /\
  world (stateOf (uploadRoute JS.isoDate (Some "u-viewer") (Some testFile)
                    seedPortal))
  = world seedPortal.
Proof.
  apply (upload_route_guard JS.isoDate (Some "u-viewer") testFile seedPortal).
Defined.

Lemma login_then_session_witness :
  exists u,
    u ∈ seedUsers /\ user_role u = ANALYST /\
    resultOf (getSession steady steady steady findSessionUser (Some "u-analyst")
                (stateOf (loginPortal compareSeed (Some "analyst@kco.dev")
                            (Some "Passw0rd!") seedPortal)))
    = Some (toSession u).
Proof.
  destruct (login_then_session compareSeed (Some "analyst@kco.dev")
              (Some "Passw0rd!") seedPortal
              (mkResponse 200 (LoginUser "analyst@kco.dev" ANALYST (Some "Analyst")))
              "u-analyst")
    as (u & Hin & Hmail & _ & Hid & _ & _ & Hsession).
  - compute_done.
  - intros u Hu. revert u Hu. apply Forall_forall. compute_done.
  - reflexivity.
  - exists u. split; [exact Hin|]. split; [|exact Hsession].
    revert u Hin Hmail Hid Hsession. cbn [seedPortal world users].
    intros u Hin [= Hmail] _ _.
    apply list_elem_of_In in Hin. cbn in Hin.
    destruct Hin as [<-|[<-|[<-|[]]]]; [discriminate|reflexivity|discriminate].
Defined.

(** ** The analytics handler: the window *)

Section WindowMore.

Context {Group : Type}.
Variable groupBy : GroupByArgs -> list SpendRecord -> list Group.

(** A longer window lists at least what a shorter one lists: when two
    requests at the same instant over the same table are answered, and the
    range of the first is at most the range of the second, every team and
    every environment of the first answer is in the second. *)
Theorem longer_window_lists_more (q1 q2 : SpendQuery) (now : Z)
    (table : list SpendRecord) (days1 days2 : Z)
    (daily1 top1 daily2 top2 : list Group) (teams1 envs1 teams2 envs2 : list string) :
  rangeOf q1 = Some days1 ->
  rangeOf q2 = Some days2 ->
  days1 <= days2 ->
  GET groupBy None q1 now table =
    mkResponse 200 (SpendData daily1 top1 teams1 envs1) ->
  GET groupBy None q2 now table =
    mkResponse 200 (SpendData daily2 top2 teams2 envs2) ->
  teams1 ⊆ teams2 /\ envs1 ⊆ envs2.
Proof.
  intros Hr1 Hr2 Hle Hget1 Hget2.
  destruct (startDateOf now (rangeOf q1)) as [start1|] eqn:Hs1.
  2: { unfold GET in Hget1. rewrite Hs1 in Hget1. discriminate. }
  destruct (startDateOf now (rangeOf q2)) as [start2|] eqn:Hs2.
  2: { unfold GET in Hget2. rewrite Hs2 in Hget2. discriminate. }
  rewrite (GET_window _ _ _ _ _ Hs1) in Hget1.
  rewrite (GET_window _ _ _ _ _ Hs2) in Hget2.
  cbv zeta in Hget1, Hget2.
  injection Hget1 as _ _ <- <-. injection Hget2 as _ _ <- <-.
  assert (Hstarts : start2 <= start1).
  { rewrite Hr1 in Hs1. rewrite Hr2 in Hs2. unfold startDateOf, JS.timeClip in *.
    destruct (_ <=? _) in Hs1; [|discriminate].
    destruct (_ <=? _) in Hs2; [|discriminate].
    injection Hs1 as <-. injection Hs2 as <-. unfold JS.msPerDay. lia. }
  assert (Hwider : forall r, inWindow start1 now r = true ->
                             inWindow start2 now r = true).
  { intros r. unfold inWindow. destruct (sr_date r) as [t|]; [|done].
    rewrite !andb_true_iff, !Z.leb_le. lia. }
  assert (Hcolumn : forall column,
            presentSorted (findManyDistinct (mkWhere start1 now None None None)
                                            column table)
            ⊆ presentSorted (findManyDistinct (mkWhere start2 now None None None)
                                              column table)).
  { intros column text Hin.
    destruct (presentSorted_spec
                (findManyDistinct (mkWhere start1 now None None None) column table))
      as (_ & _ & Hm1).
    destruct (presentSorted_spec
                (findManyDistinct (mkWhere start2 now None None None) column table))
      as (_ & _ & Hm2).
    apply Hm1 in Hin as [Hne Hfound]. apply Hm2. split; [exact Hne|].
    apply (findManyDistinct_window start1 now column table) in Hfound
      as (r & Hr & Hwin & Hcol).
    apply (findManyDistinct_window start2 now column table).
    exists r. split; [exact Hr|]. split; [by apply Hwider|exact Hcol]. }
  split; apply Hcolumn.
Qed.

(** A negative range is not refused: the window then starts after it
    ends, and the two lists of the answer are empty. *)
Theorem negative_range_lists_nothing (q : SpendQuery) (now : Z)
    (table : list SpendRecord) (days : Z)
    (daily top : list Group) (teams envs : list string) :
  rangeOf q = Some days ->
  days < 0 ->
  GET groupBy None q now table = mkResponse 200 (SpendData daily top teams envs) ->
  teams = [] /\ envs = [].
Proof.
  intros Hr Hneg Hget.
  destruct (startDateOf now (rangeOf q)) as [start|] eqn:Hs.
  2: { unfold GET in Hget. rewrite Hs in Hget. discriminate. }
  rewrite (GET_window _ _ _ _ _ Hs) in Hget. cbv zeta in Hget.
  injection Hget as _ _ <- <-.
  assert (Hlate : now < start).
  { rewrite Hr in Hs. unfold startDateOf, JS.timeClip in Hs.
    destruct (_ <=? _) in Hs; [|discriminate].
    injection Hs as <-. unfold JS.msPerDay. lia. }
  assert (Hcolumn : forall column,
            presentSorted (findManyDistinct (mkWhere start now None None None)
                                            column table) = []).
  { intros column. apply elem_of_nil_inv. intros text Hin.
    destruct (presentSorted_spec
                (findManyDistinct (mkWhere start now None None None) column table))
      as (_ & _ & Hm).
    apply Hm in Hin as [_ Hfound].
    apply (findManyDistinct_window start now column table) in Hfound
      as (r & _ & Hwin & _).
    unfold inWindow in Hwin. destruct (sr_date r) as [t|]; [|discriminate].
    apply andb_true_iff in Hwin as [H1 H2].
    apply Z.leb_le in H1, H2. lia. }
  split; apply Hcolumn.
Qed.

End WindowMore.

Lemma longer_window_lists_more_witness :
  ["data"; "web"] ⊆ ["archive"; "data"; "web"].
Proof.
  apply (longer_window_lists_more noGroups
           (mkSpendQuery (Some "7") None None None)
           (mkSpendQuery (Some "90") None None None)
           sampleNow sampleTable 7 90 [] [] [] []
           ["data"; "web"] ["prod"] ["archive"; "data"; "web"] ["prod"; "staging"]);
    [reflexivity|reflexivity|lia|reflexivity|reflexivity].
Defined.

Lemma negative_range_lists_nothing_witness :
  exists daily top,
    GET noGroups None (mkSpendQuery (Some "-3") None None None)
        sampleNow sampleTable
    = mkResponse 200 (SpendData daily top [] []).
Proof.
  destruct (GET noGroups None (mkSpendQuery (Some "-3") None None None)
              sampleNow sampleTable) as [code [error|daily top teams envs]] eqn:Hget;
    [discriminate|].
  assert (Hcode : code = 200) by (by injection Hget).
  subst code.
  destruct (negative_range_lists_nothing noGroups
              (mkSpendQuery (Some "-3") None None None) sampleNow sampleTable
              (-3) daily top teams envs eq_refl ltac:(lia) Hget) as [-> ->].
  by exists daily, top.
Defined.

(** ** From the upload to the filter lists *)




(** ** The savings list *)

#[local] Instance newerFirst_total : Total newerFirst.
Proof. intros a b. unfold newerFirst. lia. Qed.

Lemma filter_status_clause (s : SavingStatus) (table : list SavingIdea) :
  filter (fun idea => satisfiesClause (Some s) idea = true) table =
  filter (fun idea => idea_status idea = s) table.
Proof.
  apply list_filter_iff. intros idea. cbn [satisfiesClause].
  apply bool_decide_eq_true.
Qed.

Lemma filter_no_clause (table : list SavingIdea) :
  filter (fun idea => satisfiesClause None idea = true) table = table.
Proof.
  induction table as [|idea table IH]; [reflexivity|].
  rewrite filter_cons, decide_True by done. by rewrite IH.
Qed.

(** The status filter: the parameter restricts the list only when it is
    exactly one of PROPOSED, APPROVED and REALIZED, and the answer then
    holds the ideas of that status, each as often as the table holds it;
    with any other parameter (none, an empty one, another spelling) no
    request is refused and the answer holds every idea.  In both cases the
    ideas come newest first. *)
Theorem savings_status_filter (statusParam : option string)
    (table : list SavingIdea) :
  exists ideas,
    savingsGET None statusParam table = mkResponse 200 (SavingsList ideas) /\
    Sorted newerFirst ideas /\
    ((exists s, statusParam = Some (statusName s) /\
                ideas ≡ₚ filter (fun idea => idea_status idea = s) table) \/
     ((forall s, statusParam <> Some (statusName s)) /\ ideas ≡ₚ table)).
Proof.
  unfold savingsGET. eexists. split; [reflexivity|].
  split; [apply (Sorted_merge_sort newerFirst)|].
  unfold findManyIdeas.
  destruct (statusClause statusParam) as [s|] eqn:Hclause.
  - left. exists s. unfold statusClause in Hclause.
    destruct (JS.truthy statusParam) eqn:Hparam; [|discriminate].
    apply truthy_Some in Hparam as (text & -> & _).
    change (JS.narrowed (Some text)) with text in Hclause.
    apply find_elem in Hclause as [_ Heq]. apply String.eqb_eq in Heq. subst text.
    split; [reflexivity|].
    rewrite <- filter_status_clause. apply merge_sort_Permutation.
  - right. split.
    + intros s ->. by destruct s.
    + etrans; [apply merge_sort_Permutation|]. by rewrite filter_no_clause.
Qed.

(** ** The page guard *)

(** The guard redirects in two cases only: a path that starts with
    [/dashboard], asked for without a session cookie (or with an empty
    one), goes to [/login] and takes the path along as [redirect]; a path
    that starts with [/login], asked for with a session cookie, goes to
    [/dashboard].  A redirect never leads to another one: the path it
    leads to is served under the same cookie. *)
Theorem proxy_redirects_once (pathname : string) (sessionCookie : JS.value)
    (target : string) (redirectParam : option string) :
  proxy pathname sessionCookie = ProxyRedirect target redirectParam ->
  proxy target sessionCookie = ProxyNext /\
  ((target = "/login" /\ redirectParam = Some pathname /\
    JS.truthy sessionCookie = false /\
    exists rest, pathname = "/dashboard" +:+ rest) \/
   (target = "/dashboard" /\ redirectParam = None /\
    JS.truthy sessionCookie = true /\
    exists rest, pathname = "/login" +:+ rest)).
Proof.
  unfold proxy. cbn [existsb protectedRoutes authRoutes]. rewrite !orb_false_r.
  destruct (JS.startsWith pathname "/dashboard") eqn:Hdash;
    destruct (JS.truthy sessionCookie) eqn:Hsession; cbn [andb negb].
  - destruct (JS.startsWith pathname "/login") eqn:Hlogin; cbn [andb]; [|done].
    intros [= <- <-]. split; [reflexivity|]. right.
    apply startsWith_spec in Hlogin. done.
  - intros [= <- <-]. split; [reflexivity|]. left.
    apply startsWith_spec in Hdash. done.
  - destruct (JS.startsWith pathname "/login") eqn:Hlogin; cbn [andb]; [|done].
    intros [= <- <-]. split; [reflexivity|]. right.
    apply startsWith_spec in Hlogin. done.
  - rewrite andb_false_r. done.
Qed.

Lemma proxy_redirects_once_witness :
  proxy "/login" None = ProxyNext.
Proof.
  apply (proxy_redirects_once "/dashboard/savings" None "/login"
           (Some "/dashboard/savings")).
  reflexivity.
Defined.
